(** * Problem Details glue and the JSON-Pointer builder

    A shallow embedding of
    - [fastapi/utils.py]: [is_body_allowed_for_status_code] and
      [build_from_pydantic_error], and the helpers
      [get_path_param_names], [generate_unique_id], [deep_dict_update]
      and [get_value_or_default];
    - [fastapi/exception_handlers.py]: [http_exception_handler] and the
      two handlers of [configure_problem_details];
    - [fastapi/middleware/error.py]: [ErrorMiddleware.__call__];
    together with the properties the specification states about them and
    further properties read off the code. *)

From Stdlib Require Import String Ascii List ZArith Lia Bool.
From Stdlib Require Import DecimalString DecimalZ.
Import ListNotations.
Open Scope string_scope.

(** ** The fragment of the Python runtime the code relies on *)

Module Py.

(** Exception classes, as far as the code tells them apart.
    [KeyboardInterrupt] derives from [BaseException] only;
    [FastAPIHTTPException] is [fastapi.exceptions.HTTPException], a
    subclass of Starlette's. *)
Inductive exc_class : Type :=
| BaseException
| Exception
| KeyboardInterrupt
| RuntimeError
| ValueError
| TypeError
| IndexError
| StarletteHTTPException
| FastAPIHTTPException
| RequestValidationError.

Definition exc_class_eqb (c d : exc_class) : bool :=
  match c, d with
  | BaseException, BaseException
  | Exception, Exception
  | KeyboardInterrupt, KeyboardInterrupt
  | RuntimeError, RuntimeError
  | ValueError, ValueError
  | TypeError, TypeError
  | IndexError, IndexError
  | StarletteHTTPException, StarletteHTTPException
  | FastAPIHTTPException, FastAPIHTTPException
  | RequestValidationError, RequestValidationError => true
  | _, _ => false
  end.

(** An exception object: its class and the text [str(exc)] gives. *)
Record exc : Type := Exc {
  exc_cls : exc_class;
  exc_text : string;
}.

(** The result of evaluating an expression: a value, or a raised
    exception. *)
Inductive result (A : Type) : Type :=
| Ok (a : A)
| Raise (e : exc).
Arguments Ok {A} a.
Arguments Raise {A} e.

(** Objects that occur as segments of a [loc].  [Obj r] is an object of
    any other class; [r] is what its [__str__] does: return a text or
    raise. *)
Inductive value : Type :=
| NoneV
| Bool (b : bool)
| Int (z : Z)
| Str (s : string)
| Obj (r : result string).

(** [isinstance(v, str)] *)
Definition isinstance_str (v : value) : bool :=
  match v with Str _ => true | _ => false end.

(** [isinstance(v, int)]; [bool] is a subclass of [int]. *)
Definition isinstance_int (v : value) : bool :=
  match v with Int _ | Bool _ => true | _ => false end.

(** [str(z)] for an [int]: decimal digits, with a leading [-] below 0. *)
Definition str_int (z : Z) : string := NilZero.string_of_int (Z.to_int z).

(** The interpreter's default bound on the digits of an [int] that is
    turned into text ([sys.get_int_max_str_digits()]). *)
Definition int_max_str_digits : nat := 4300.

(** Number of decimal digits of [z]. *)
Definition digits (z : Z) : nat := String.length (str_int (Z.abs z)).

(** [str(v)] *)
Definition str (v : value) : result string :=
  match v with
  | NoneV => Ok "None"
  | Bool true => Ok "True"
  | Bool false => Ok "False"
  | Int z =>
      if (int_max_str_digits <? digits z)%nat
      then Raise (Exc ValueError
                    "Exceeds the limit (4300 digits) for integer string conversion")
      else Ok (str_int z)
  | Str s => Ok s
  | Obj r => r
  end.

(** [v in markers] for a set of text constants: only a [str] equals one
    of them. *)
Definition in_str_set (v : value) (set : list string) : bool :=
  match v with
  | Str s => existsb (String.eqb s) set
  | _ => false
  end.

(** [s.replace(old, new)] for a pattern [old] of one character: every
    occurrence, left to right. *)
Fixpoint replace (old : ascii) (new : string) (s : string) : string :=
  match s with
  | EmptyString => EmptyString
  | String c rest =>
      if Ascii.eqb c old then new ++ replace old new rest
      else String c (replace old new rest)
  end.

(** [sep.join(parts)] *)
Definition join (sep : string) (parts : list string) : string :=
  String.concat sep parts.

(** [s[:n]] *)
Definition slice_to (n : nat) (s : string) : string := substring 0 n s.

(** [c in s] for a character [c]. *)
Fixpoint contains (c : ascii) (s : string) : bool :=
  match s with
  | EmptyString => false
  | String d rest => Ascii.eqb d c || contains c rest
  end.

(** [s * n] *)
Fixpoint times (s : string) (n : nat) : string :=
  match n with
  | O => EmptyString
  | S k => s ++ times s k
  end.

End Py.

Import Py.

(** ** Calls that read a sequence object

    [build_from_pydantic_error] receives a reference to the caller's
    sequence.  A computation runs against the contents of that object and
    hands them back next to its result, so that a write to the object
    would show. *)

Module Call.

Definition store : Type := list value.

Definition M (A : Type) : Type := store -> result A * store.

Definition ret {A} (a : A) : M A := fun st => (Ok a, st).

Definition bind {A B} (m : M A) (f : A -> M B) : M B :=
  fun st =>
    match m st with
    | (Ok a, st') => f a st'
    | (Raise e, st') => (Raise e, st')
    end.

(** An expression that does not touch the sequence. *)
Definition lift {A} (r : result A) : M A := fun st => (r, st).

(** [bool(loc)]: a sequence is true when it has an item. *)
Definition truth : M bool :=
  fun st => (Ok (match st with [] => false | _ :: _ => true end), st).

(** [loc[i]] *)
Definition getitem (i : nat) : M value :=
  fun st =>
    match nth_error st i with
    | Some v => (Ok v, st)
    | None => (Raise (Exc IndexError "list index out of range"), st)
    end.

(** [loc.append(v)], the way a write to the sequence shows. *)
Definition append (v : value) : M unit :=
  fun st => (Ok tt, (st ++ [v])%list).

(** [loc[i:]]: a new sequence. *)
Definition slice_from (i : nat) : M (list value) :=
  fun st => (Ok (skipn i st), st).

(** [for x in xs: body], threading the loop's local variables. *)
Fixpoint for_each {A S} (xs : list A) (body : A -> S -> M S) (s : S) : M S :=
  match xs with
  | [] => ret s
  | x :: rest => bind (body x s) (for_each rest body)
  end.

End Call.

Declare Scope call_scope.
Delimit Scope call_scope with call.
Notation "x <- m ;; k" := (Call.bind m (fun x => k))
  (at level 61, m at next level, right associativity) : call_scope.
Notation "' pat <- m ;; k" := (Call.bind m (fun x => match x with pat => k end))
  (at level 61, pat pattern, m at next level, right associativity) : call_scope.

(** ** fastapi/utils.py *)

Module Utils.

Import Call.
Local Open Scope call_scope.

(** The argument of [is_body_allowed_for_status_code]:
    [Union[int, str, None]]. *)
Inductive status_code_arg : Type :=
| CodeNone
| CodeInt (z : Z)
| CodeStr (s : string).

Definition openapi_patterns : list string :=
  ["default"; "1XX"; "2XX"; "3XX"; "4XX"; "5XX"].

(** [status_code is None] *)
Definition is_None (status_code : status_code_arg) : bool :=
  match status_code with CodeNone => true | _ => false end.

(** [status_code in {"default", "1XX", ...}]: an [int] equals no text. *)
Definition in_patterns (status_code : status_code_arg) : bool :=
  match status_code with
  | CodeStr s => existsb (String.eqb s) openapi_patterns
  | _ => false
  end.

Section StatusCode.

(** [int(s)] for a text [s]: the number it spells, or [ValueError]. *)
Variable int_of_text : string -> result Z.

(** [int(status_code)] *)
Definition int_ (status_code : status_code_arg) : result Z :=
  match status_code with
  | CodeNone =>
      Raise (Exc TypeError "int() argument must be a string, a bytes-like object or a real number, not 'NoneType'")
  | CodeInt z => Ok z
  | CodeStr s => int_of_text s
  end.

Definition is_body_allowed_for_status_code (status_code : status_code_arg)
  : result bool :=
  if is_None status_code then Ok true
  else if in_patterns status_code then Ok true
  else
    match int_ status_code with
    | Raise e => Raise e
    | Ok current_status_code =>
        Ok (negb ((current_status_code <? 200)%Z
                  || existsb (Z.eqb current_status_code) [204; 205; 304]%Z))
    end.

End StatusCode.

Definition src_markers : list string := ["body"; "json"; "value"].

Definition MAX_POINTER_LENGTH : nat := 2000.

(** [_escape]: [segment.replace("~", "~0").replace("/", "~1")] *)
Definition _escape (segment : string) : string :=
  replace "/" "~1" (replace "~" "~0" segment).

(** The body of the loop over [loc[start_index:]]; the loop's variables
    are [parts] and [total_len]. *)
Definition loop_body (seg : value) (vars : list string * nat)
  : M (list string * nat) :=
  let '(parts, total_len) := vars in
  s <- (if isinstance_int seg then lift (str seg) else lift (str seg)) ;;
  let escaped := _escape s in
  ret ((parts ++ [escaped])%list, total_len + String.length escaped).

Definition build_from_pydantic_error : M string :=
  nonempty <- truth ;;
  if negb nonempty then ret ""
  else
    first <- getitem 0 ;;
    let start_index :=
      if isinstance_str first && in_str_set first src_markers
      then 1%nat else 0%nat in
    segs <- slice_from start_index ;;
    ' (parts, total_len) <- for_each segs loop_body ([], 0%nat) ;;
    match parts with
    | [] => ret ""
    | _ :: _ =>
        let pointer := "/" ++ join "/" parts in
        if (MAX_POINTER_LENGTH <? String.length pointer)%nat
        then ret (slice_to MAX_POINTER_LENGTH pointer ++ "...")
        else ret pointer
    end.

End Utils.

Import Utils.

(** ** fastapi/exception_handlers.py *)

Module ExceptionHandlers.

(** JSON-compatible content of a response. *)
#[warnings="-register-all"] Inductive json : Type :=
| JNull
| JBool (b : bool)
| JInt (z : Z)
| JStr (s : string)
| JList (items : list json)
| JDict (items : list (string * json)).

Definition headers : Type := list (string * string).

(** What a handler returns.  [Response(status_code=.., headers=..)] has
    an empty body; [JSONResponse(content, ..)] carries [content]. *)
Inductive response : Type :=
| Response (status_code : Z) (hdrs : option headers)
| JSONResponse (content : json) (status_code : Z) (hdrs : option headers)
               (media_type : string).

(** The body a response carries, if it has one. *)
Definition response_body (r : response) : option json :=
  match r with
  | Response _ _ => None
  | JSONResponse content _ _ _ => Some content
  end.

(** [starlette.exceptions.HTTPException]; [http_headers] is [None] when
    the attribute is missing or unset. *)
Record HTTPException : Type := {
  http_status_code : Z;
  http_detail : json;
  http_headers : option headers;
}.

Section Handlers.

Variable int_of_text : string -> result Z.

Definition http_exception_handler (exc : HTTPException) : result response :=
  let headers := http_headers exc in
  match is_body_allowed_for_status_code int_of_text
          (CodeInt (http_status_code exc)) with
  | Raise e => Raise e
  | Ok allowed =>
      if negb allowed
      then Ok (Response (http_status_code exc) headers)
      else Ok (JSONResponse (JDict [("detail", http_detail exc)])
                 (http_status_code exc) headers "application/json")
  end.

End Handlers.

End ExceptionHandlers.

(** ** fastapi/middleware/error.py *)

Module ErrorMiddleware.

Import ExceptionHandlers.

(** [issubclass]: the direct base of each class. *)
Definition base (c : exc_class) : option exc_class :=
  match c with
  | BaseException => None
  | Exception | KeyboardInterrupt => Some BaseException
  | FastAPIHTTPException => Some StarletteHTTPException
  | _ => Some Exception
  end.

Fixpoint issubclass_fuel (fuel : nat) (c d : exc_class) : bool :=
  exc_class_eqb c d
  || match fuel, base c with
     | S k, Some b => issubclass_fuel k b d
     | _, _ => false
     end.

(** [isinstance(exc, cls)] *)
Definition isinstance (e : exc) (cls : exc_class) : bool :=
  issubclass_fuel 4 (exc_cls e) cls.

(** An ASGI scope: a mapping from keys to texts. *)
Definition scope : Type := list (string * string).

Fixpoint scope_get (sc : scope) (key : string) : option string :=
  match sc with
  | [] => None
  | (k, v) :: rest => if String.eqb k key then Some v else scope_get rest key
  end.

(** What a request leaves behind: the responses sent to the client and
    the records written to the process-wide logger. *)
Record world : Type := World {
  sent : list response;
  logged : list string;
}.

(** An ASGI application: it may send, log, and return or raise. *)
Definition asgi_app : Type := scope -> world -> result unit * world.

(** [logger.exception(msg)] *)
Definition logger_exception (msg : string) (w : world) : world :=
  World (sent w) (logged w ++ [msg])%list.

(** [await response(scope, receive, send)] *)
Definition send_response (r : response) (w : world) : world :=
  World (sent w ++ [r])%list (logged w).

(** [d[key] = v] on a dict with insertion order. *)
Fixpoint dict_set (d : list (string * json)) (key : string) (v : json)
  : list (string * json) :=
  match d with
  | [] => [(key, v)]
  | (k, old) :: rest =>
      if String.eqb k key then (k, v) :: rest
      else (k, old) :: dict_set rest key v
  end.

(** The two names the handler imports; [None] when the import raised. *)
Record imports : Type := {
  imp_StarletteHTTPException : option exc_class;
  imp_RequestValidationError : option exc_class;
}.

(** Both imports resolve. *)
Definition installed : imports :=
  {| imp_StarletteHTTPException := Some StarletteHTTPException;
     imp_RequestValidationError := Some RequestValidationError |}.

(** [cls and isinstance(exc, cls)] *)
Definition and_isinstance (cls : option exc_class) (e : exc) : bool :=
  match cls with
  | None => false
  | Some c => isinstance e c
  end.

Record ErrorMiddleware : Type := {
  app : asgi_app;
  debug : bool;
}.

Definition __call__ (env : imports) (self : ErrorMiddleware) (sc : scope)
  (w : world) : result unit * world :=
  if negb (match scope_get sc "type" with
           | Some t => String.eqb t "http"
           | None => false
           end)
  then app self sc w
  else
    match app self sc w with
    | (Ok tt, w1) => (Ok tt, w1)
    | (Raise exc, w1) =>
        if negb (isinstance exc Exception) then (Raise exc, w1)
        else if and_isinstance (imp_StarletteHTTPException env) exc
        then (Raise exc, w1)
        else if and_isinstance (imp_RequestValidationError env) exc
        then (Raise exc, w1)
        else
          let w2 := logger_exception "Unhandled exception in request" w1 in
          let problem :=
            [("type", JStr "about:blank");
             ("title", JStr "Internal Server Error");
             ("status", JInt 500);
             ("detail", JStr "Internal Server Error")] in
          let problem :=
            if debug self
            then dict_set problem "detail" (JStr (exc_text exc))
            else problem in
          let response :=
            JSONResponse (JDict problem) 500 None "application/problem+json" in
          (Ok tt, send_response response w2)
    end.

End ErrorMiddleware.

(** ** fastapi/utils.py, the other helpers *)

Module UtilsRest.

(** The shortest run of characters other than a newline that ends at the
    next "}": what the group [(.*?)] followed by "}" matches at the head
    of [s], with the text left behind the "}". *)
Fixpoint group_end (s : string) : option (string * string) :=
  match s with
  | EmptyString => None
  | String c rest =>
      if Ascii.eqb c "}" then Some (EmptyString, rest)
      else if Ascii.eqb c "010" then None
      else
        match group_end rest with
        | Some (g, r) => Some (String c g, r)
        | None => None
        end
  end.

(** [re.findall("{(.*?)}", s)]: the groups of the matches found from left
    to right.  A match is tried at each position; after a match the scan
    resumes behind it, which [skip] counts down to; after a failure it
    moves on by one character. *)
Fixpoint findall (skip : nat) (s : string) : list string :=
  match s with
  | EmptyString => []
  | String c rest =>
      match skip with
      | S k => findall k rest
      | O =>
          if Ascii.eqb c "{" then
            match group_end rest with
            | Some (g, _) => g :: findall (S (String.length g)) rest
            | None => findall 0 rest
            end
          else findall 0 rest
      end
  end.

(** [set(...)]: the items without repeats; the order carries no meaning. *)
Definition set_of (items : list string) : list string :=
  nodup string_dec items.

Definition get_path_param_names (path : string) : list string :=
  set_of (findall 0 path).

(** An item passed to [get_value_or_default]: a [DefaultPlaceholder]
    around a value, or a value given as it is. *)
Inductive item (A : Type) : Type :=
| Placeholder (value : A)
| Given (value : A).
Arguments Placeholder {A} value.
Arguments Given {A} value.

(** [isinstance(item, DefaultPlaceholder)] *)
Definition is_placeholder {A} (it : item A) : bool :=
  match it with Placeholder _ => true | Given _ => false end.

(** The loop over [items] with its early [return], and the [return]
    behind it. *)
Fixpoint first_given {A} (items : list (item A)) (first_item : item A)
  : item A :=
  match items with
  | [] => first_item
  | it :: rest =>
      if negb (is_placeholder it) then it else first_given rest first_item
  end.

Definition get_value_or_default {A} (first_item : item A)
  (extra_items : list (item A)) : item A :=
  let items := first_item :: extra_items in
  first_given items first_item.

(** A route, as far as [generate_unique_id] reads it; [methods] lists the
    set in the order [list(route.methods)] gives. *)
Record APIRoute : Type := {
  name : string;
  path_format : string;
  methods : list string;
}.

Section OperationId.

(** Whether a character matches [\w]. *)
Variable is_word : ascii -> bool.

(** [str.lower] *)
Variable lower : string -> string.

(** [re.sub(r"\W", "_", s)] *)
Fixpoint sub_nonword (s : string) : string :=
  match s with
  | EmptyString => EmptyString
  | String c rest =>
      String (if is_word c then c else "_"%char) (sub_nonword rest)
  end.

(** [None] stands for the [AssertionError] of [assert route.methods]. *)
Definition generate_unique_id (route : APIRoute) : option string :=
  let operation_id := name route ++ path_format route in
  let operation_id := sub_nonword operation_id in
  match methods route with
  | [] => None
  | first_method :: _ =>
      Some (operation_id ++ "_" ++ lower first_method)
  end.

End OperationId.

End UtilsRest.

(** ** fastapi/utils.py, [deep_dict_update] *)

Module DictUpdate.

Import ExceptionHandlers.

(** A [dict] with text keys, in insertion order. *)
Definition dict : Type := list (string * json).

(** [d[key]] for a key that may be missing ([key in d] when it is not
    [None]). *)
Fixpoint lookup (d : dict) (key : string) : option json :=
  match d with
  | [] => None
  | (k, v) :: rest => if String.eqb k key then Some v else lookup rest key
  end.

(** One round of the loop, for the item [(key, value)] of [update_dict];
    [recurse] is the call on [value] when it is a [dict]. *)
Definition update_item (recurse : dict -> dict) (main_dict : dict)
  (key : string) (value : json) : dict :=
  match lookup main_dict key, value with
  | Some (JDict inner), JDict _ =>
      ErrorMiddleware.dict_set main_dict key (JDict (recurse inner))
  | Some (JList items), JList more =>
      ErrorMiddleware.dict_set main_dict key (JList (items ++ more)%list)
  | _, _ => ErrorMiddleware.dict_set main_dict key value
  end.

(** [deep_dict_update(main_dict, update)] for [update] a [dict]: what
    [main_dict] holds afterwards. *)
Fixpoint update_with (update : json) : dict -> dict :=
  match update with
  | JDict update_dict =>
      (fix loop (items : dict) (main_dict : dict) {struct items} : dict :=
         match items with
         | [] => main_dict
         | (key, value) :: rest =>
             loop rest (update_item (update_with value) main_dict key value)
         end) update_dict
  | _ => fun main_dict => main_dict
  end.

Definition deep_dict_update (main_dict update_dict : dict) : dict :=
  update_with (JDict update_dict) main_dict.

End DictUpdate.

(** ** fastapi/exception_handlers.py, [configure_problem_details] *)

Module ProblemDetails.

Import ExceptionHandlers.

(** The keyword arguments of [configure_problem_details]. *)
Record config : Type := {
  legacy_mode : bool;
  override_http_exceptions : bool;
  type_base : string;
  debug : bool;
}.

(** One entry of [exc.errors()]; a field is [None] when the key is
    missing.  [input] is the offending value, an object of any class,
    which the handler hands to [jsonable_encoder] with the rest. *)
Record error : Type := {
  loc : option (list value);
  msg : option json;
  type_ : option json;
  ctx : option json;
  input : option value;
}.


(** One entry of [normalized]. *)
Record normalized_error : Type := {
  n_loc : list value;
  n_msg : option json;
  n_type : option json;
  n_ctx : option json;
  pointer : string;
}.

(** [bool(v)] *)
Definition truthy (v : json) : bool :=
  match v with
  | JNull => false
  | JBool b => b
  | JInt z => negb (z =? 0)%Z
  | JStr s => negb (String.eqb s "")
  | JList items => match items with [] => false | _ :: _ => true end
  | JDict items => match items with [] => false | _ :: _ => true end
  end.

(** [isinstance(v, dict) and key in v] *)
Definition is_dict_with (key : string) (v : json) : bool :=
  match v with
  | JDict items => existsb (fun kv => String.eqb (fst kv) key) items
  | _ => false
  end.

(** [isinstance(v, list)] *)
Definition is_list (v : json) : bool :=
  match v with JList _ => true | _ => false end.

Section Handlers.

Variable int_of_text : string -> result Z.

(** [jsonable_encoder] on [exc.errors()] and on [normalized]: the
    encoded value, or the exception it raises on a value it cannot
    encode. *)
Variable encode_errors : list error -> result json.
Variable encode_normalized : list normalized_error -> result json.

(** [jsonable_encoder] on a detail that is JSON already. *)
Variable jsonable_encoder : json -> json.

(** What [JSONResponse(content=...)] does with the content of the
    validation problem when it renders the body: nothing to report, or
    the [ValueError] for a number that is not finite. *)
Variable render : json -> result unit.

(** [str(exc.detail)] *)
Variable str_detail : json -> string.

Variable cfg : config.

(** The loop of [_build_validation_problem] over [raw_errors]. *)
Fixpoint normalize (raw_errors : list error) : result (list normalized_error) :=
  match raw_errors with
  | [] => Ok []
  | err :: rest =>
      let loc := match loc err with Some l => l | None => [] end in
      match fst (build_from_pydantic_error loc) with
      | Raise e => Raise e
      | Ok pointer =>
          match normalize rest with
          | Raise e => Raise e
          | Ok normalized =>
              Ok ({| n_loc := loc; n_msg := msg err; n_type := type_ err;
                     n_ctx := ctx err; pointer := pointer |} :: normalized)
          end
      end
  end.



Definition _http_exc_handler (exc : HTTPException) : result response :=
  let headers := http_headers exc in
  match is_body_allowed_for_status_code int_of_text
          (CodeInt (http_status_code exc)) with
  | Raise e => Raise e
  | Ok allowed =>
      if negb allowed
      then Ok (Response (http_status_code exc) headers)
      else if is_dict_with "type" (http_detail exc)
      then Ok (JSONResponse (http_detail exc) (http_status_code exc) headers
                 "application/problem+json")
      else
        let content :=
          if legacy_mode cfg && is_list (http_detail exc) then
            JDict [("type", JStr (type_base cfg ++ "/http-error"));
                   ("title", JInt (http_status_code exc));
                   ("status", JInt (http_status_code exc));
                   ("detail", jsonable_encoder (http_detail exc))]
          else
            JDict [("type", JStr (type_base cfg ++ "/http-error"));
                   ("title",
                    JStr (if truthy (http_detail exc)
                          then str_detail (http_detail exc)
                          else "HTTP Error"));
                   ("status", JInt (http_status_code exc));
                   ("detail",
                    if truthy (http_detail exc)
                    then JStr (str_detail (http_detail exc))
                    else JNull)] in
        Ok (JSONResponse content (http_status_code exc) headers
              "application/problem+json")
  end.

End Handlers.

End ProblemDetails.

(** ** Vocabulary of the specification *)

(** A source marker: a [str] equal to "body", "json" or "value". *)
Definition is_marker (v : value) : bool :=
  isinstance_str v && in_str_set v src_markers.

(** The segments that remain once a leading source marker is removed. *)
Definition remaining (loc : list value) : list value :=
  match loc with
  | [] => []
  | first :: rest => if is_marker first then rest else loc
  end.

(** A segment is representable when [str] returns for it. *)
Definition representable (v : value) : bool :=
  match str v with Ok _ => true | Raise _ => false end.

(** The text form of a representable segment. *)
Definition text_of (v : value) : string :=
  match str v with Ok s => s | Raise _ => "" end.

(** The escaped unit a segment contributes to the pointer. *)
Definition unit_of (v : value) : string := _escape (text_of v).

(** The text forms of a run of segments, or the first exception. *)
Fixpoint texts (segs : list value) : result (list string) :=
  match segs with
  | [] => Ok []
  | v :: rest =>
      match str v, texts rest with
      | Ok s, Ok ts => Ok (s :: ts)
      | Raise e, _ => Raise e
      | Ok _, Raise e => Raise e
      end
  end.

(** The pointer before the length bound: nothing for no units, else the
    units behind a "/" each. *)
Definition joined (units : list string) : string :=
  match units with
  | [] => ""
  | _ :: _ => "/" ++ join "/" units
  end.

(** The length bound on a pointer. *)
Definition truncated (pointer : string) : string :=
  if (String.length pointer <=? 2000)%nat
  then pointer
  else slice_to 2000 pointer ++ "...".

(** Number of occurrences of a character. *)
Fixpoint count (c : ascii) (s : string) : nat :=
  match s with
  | EmptyString => 0
  | String d rest => (if Ascii.eqb d c then 1 else 0) + count c rest
  end.

(** Decimal digits. *)
Definition is_digit (c : ascii) : bool :=
  existsb (Ascii.eqb c)
    ["0"; "1"; "2"; "3"; "4"; "5"; "6"; "7"; "8"; "9"]%char.

Fixpoint all_digits (s : string) : bool :=
  match s with
  | EmptyString => true
  | String c rest => is_digit c && all_digits rest
  end.

(** How the specification words the text form of a segment: an integer as
    its decimal digits, [None] and the booleans by name, anything else by
    its own text, escaped. *)
Definition rendered (v : value) : string :=
  match v with
  | Int z => str_int z
  | NoneV => "None"
  | Bool true => "True"
  | Bool false => "False"
  | Str s => _escape s
  | Obj r => _escape (text_of (Obj r))
  end.

(** The status codes the code gives no body: anything below 200, and 204,
    205 and 304. *)
Definition no_body (n : Z) : bool :=
  (n <? 200)%Z || (n =? 204)%Z || (n =? 205)%Z || (n =? 304)%Z.

Import ExceptionHandlers ErrorMiddleware.

(** An HTTP request: the scope's "type" is "http". *)
Definition is_http (sc : scope) : bool :=
  match scope_get sc "type" with
  | Some t => String.eqb t "http"
  | None => false
  end.

(** The exceptions with a handler of their own: HTTP exceptions and
    request-validation errors. *)
Definition has_own_handler (e : exc) : bool :=
  isinstance e StarletteHTTPException || isinstance e RequestValidationError.

(** The Problem Details body with the fixed detail. *)
Definition generic_problem : json :=
  JDict [("type", JStr "about:blank");
         ("title", JStr "Internal Server Error");
         ("status", JInt 500);
         ("detail", JStr "Internal Server Error")].

(** The same body with the detail set to a hint. *)
Definition problem_with_detail (hint : string) : json :=
  JDict [("type", JStr "about:blank");
         ("title", JStr "Internal Server Error");
         ("status", JInt 500);
         ("detail", JStr hint)].

(** The response a request ended with, if one was sent. *)
Definition last_sent (w : world) : option response :=
  List.last (map Some (sent w)) None.

(** An [int()] that turns every text down with a [ValueError]. *)
Definition int_rejects (s : string) : result Z :=
  Raise (Exc ValueError "invalid literal for int() with base 10").

(** The exceptions the catch-all takes: instances of [Exception] that
    match neither imported class. *)
Definition caught (env : imports) (e : exc) : bool :=
  isinstance e Exception
  && negb (and_isinstance (imp_StarletteHTTPException env) e)
  && negb (and_isinstance (imp_RequestValidationError env) e).

(** The response the catch-all sends. *)
Definition problem_response (content : json) : response :=
  JSONResponse content 500 None "application/problem+json".

(** An application that raises at once. *)
Definition raising_app (e : exc) : asgi_app := fun _ w => (Raise e, w).

(** ** Vocabulary of the further properties *)

(** What [_escape] makes of one character. *)
Definition escape_char (c : ascii) : string :=
  if Ascii.eqb c "~" then "~0"
  else if Ascii.eqb c "/" then "~1"
  else String c "".

(** Escaping character by character, in one pass. *)
Fixpoint escape_each (s : string) : string :=
  match s with
  | EmptyString => EmptyString
  | String c rest => escape_char c ++ escape_each rest
  end.

(** Reading an escaped unit back, as RFC 6901 has it: "~0" is "~" and
    "~1" is "/". *)
Fixpoint unescape (s : string) : string :=
  match s with
  | EmptyString => EmptyString
  | String c rest =>
      if Ascii.eqb c "~" then
        match rest with
        | EmptyString => String c EmptyString
        | String d rest' =>
            if Ascii.eqb d "0" then String "~" (unescape rest')
            else if Ascii.eqb d "1" then String "/" (unescape rest')
            else String c (unescape rest)
        end
      else String c (unescape rest)
  end.

(** Every "~" is followed by "0" or "1". *)
Fixpoint well_escaped (s : string) : bool :=
  match s with
  | EmptyString => true
  | String c rest =>
      if Ascii.eqb c "~" then
        match rest with
        | EmptyString => false
        | String d rest' =>
            (Ascii.eqb d "0" || Ascii.eqb d "1") && well_escaped rest'
        end
      else well_escaped rest
  end.

(** A [\w] for sample runs: the ASCII letters, the digits and "_". *)
Definition ascii_word (c : ascii) : bool :=
  let n := nat_of_ascii c in
  ((48 <=? n) && (n <=? 57) || (65 <=? n) && (n <=? 90)
   || (97 <=? n) && (n <=? 122) || (n =? 95))%nat.

(** The keys of a [dict], in order. *)
Definition keys (d : DictUpdate.dict) : list string := map fst d.

(** What [deep_dict_update] leaves under a key of [update_dict], from
    what [main_dict] held there before and the value in [update_dict]:
    two dicts are merged, two lists are joined, anything else is
    overwritten. *)
Definition merged (before : option ExceptionHandlers.json)
  (value : ExceptionHandlers.json) : ExceptionHandlers.json :=
  match before, value with
  | Some (JDict inner), JDict update =>
      JDict (DictUpdate.deep_dict_update inner update)
  | Some (JList items), JList more => JList (items ++ more)%list
  | _, _ => value
  end.

(** The status code and the headers of a response. *)
Definition status_of (r : ExceptionHandlers.response) : Z :=
  match r with
  | Response c _ => c
  | JSONResponse _ c _ _ => c
  end.

Definition headers_of (r : ExceptionHandlers.response)
  : option ExceptionHandlers.headers :=
  match r with
  | Response _ h => h
  | JSONResponse _ _ h _ => h
  end.

(** The media type a handler sets, if it sets one. *)
Definition media_type_of (r : ExceptionHandlers.response) : option string :=
  match r with
  | Response _ _ => None
  | JSONResponse _ _ _ m => Some m
  end.

(** [err.get("loc", [])] *)
Definition loc_or_empty (err : ProblemDetails.error) : list value :=
  match ProblemDetails.loc err with Some l => l | None => [] end.

(** ** Sample runs *)

Example ex_simple :
  build_from_pydantic_error [Str "body"; Str "items"; Int 0; Str "id"]
  = (Ok "/items/0/id", [Str "body"; Str "items"; Int 0; Str "id"]).
Proof. reflexivity. Qed.

Example ex_escape :
  fst (build_from_pydantic_error [Str "body"; Str "a~b"; Str "c/d"])
  = Ok "/a~0b/c~1d".
Proof. reflexivity. Qed.

Example ex_non_str :
  fst (build_from_pydantic_error [Str "json"; Int 123; NoneV; Bool true])
  = Ok "/123/None/True".
Proof. reflexivity. Qed.

Example ex_neg :
  fst (build_from_pydantic_error [Int (-17); Str "body"])
  = Ok "/-17/body".
Proof. reflexivity. Qed.

(** ** Texts: lengths, occurrences, replacement *)

Lemma length_app (a b : string) :
  String.length (a ++ b) = String.length a + String.length b.
Proof.
  induction a as [|c a IH]; simpl; [reflexivity | now rewrite IH].
Qed.

Lemma length_slice_to (n : nat) (s : string) :
  String.length (slice_to n s) = Nat.min n (String.length s).
Proof.
  unfold slice_to. revert s.
  induction n as [|n IH]; intros [|c s]; simpl; try reflexivity.
  now rewrite IH.
Qed.

Lemma contains_app (c : ascii) (a b : string) :
  contains c (a ++ b) = contains c a || contains c b.
Proof.
  induction a as [|d a IH]; simpl; [reflexivity|].
  now rewrite IH, orb_assoc.
Qed.

(** The replaced character is gone once the replacement text is free of
    it. *)
Lemma contains_replace (c : ascii) (new s : string) :
  contains c new = false -> contains c (replace c new s) = false.
Proof.
  intros Hnew. induction s as [|d s IH]; simpl; [reflexivity|].
  destruct (Ascii.eqb d c) eqn:E.
  - now rewrite contains_app, Hnew, IH.
  - simpl. now rewrite E, IH.
Qed.

(** A text without the pattern is returned as it is. *)
Lemma replace_absent (c : ascii) (new s : string) :
  contains c s = false -> replace c new s = s.
Proof.
  induction s as [|d s IH]; simpl; [reflexivity|].
  intros H. apply orb_false_iff in H as [E H].
  now rewrite E, IH.
Qed.

Lemma escape_no_slash (s : string) : contains "/" (_escape s) = false.
Proof. unfold _escape. now apply contains_replace. Qed.

Lemma escape_plain (s : string) :
  contains "~" s = false -> contains "/" s = false -> _escape s = s.
Proof.
  intros Ht Hs. unfold _escape. rewrite (replace_absent "~") by assumption.
  now apply replace_absent.
Qed.

(** ** The pointer builder, step by step *)

Lemma texts_representable (segs : list value) :
  Forall (fun v => representable v = true) segs ->
  texts segs = Ok (map text_of segs).
Proof.
  induction 1 as [|v segs Hv _ IH]; simpl; [reflexivity|].
  rewrite IH. unfold representable, text_of in *.
  destruct (str v); [reflexivity | discriminate].
Qed.

Lemma texts_raises (segs : list value) (e : exc) :
  texts segs = Raise e -> Exists (fun v => representable v = false) segs.
Proof.
  induction segs as [|v segs IH]; simpl; [discriminate|].
  destruct (str v) eqn:Ev.
  - destruct (texts segs) eqn:Et; [discriminate|].
    intros H. apply Exists_cons_tl. now apply IH.
  - intros _. apply Exists_cons_hd. unfold representable. now rewrite Ev.
Qed.

(** The loop appends the escaped text of each segment to [parts] and
    leaves the sequence as it found it; it stops at the first [str] that
    raises. *)
Lemma loop_run (segs : list value) (parts : list string) (n : nat)
  (st : Call.store) :
  Call.for_each segs loop_body (parts, n) st
  = (match texts segs with
     | Ok ts =>
         Ok ((parts ++ map _escape ts)%list,
             n + list_sum (map String.length (map _escape ts)))
     | Raise e => Raise e
     end, st).
Proof.
  revert parts n.
  induction segs as [|v segs IH]; intros parts n; simpl.
  - unfold Call.ret. now rewrite app_nil_r, Nat.add_0_r.
  - unfold Call.bind, loop_body, Call.bind, Call.lift, Call.ret.
    destruct (isinstance_int v); destruct (str v) as [s|e]; try reflexivity.
    all: rewrite IH; destruct (texts segs) as [ts|e]; try reflexivity.
    all: simpl; now rewrite <- app_assoc, Nat.add_assoc.
Qed.

(** What a call does, in one equation: the result is decided by the
    segments that remain, and the sequence is handed back as it came. *)
Lemma build_run (loc : list value) :
  build_from_pydantic_error loc
  = (match texts (remaining loc) with
     | Ok ts => Ok (truncated (joined (map _escape ts)))
     | Raise e => Raise e
     end, loc).
Proof.
  unfold build_from_pydantic_error, Call.bind at 1, Call.truth.
  destruct loc as [|first rest]; [reflexivity|].
  cbn [negb].
  unfold Call.bind at 1, Call.getitem. cbn [nth_error].
  unfold Call.bind at 1, Call.slice_from.
  unfold Call.bind. rewrite loop_run.
  assert (Hseg : skipn (if isinstance_str first && in_str_set first src_markers
                        then 1 else 0) (first :: rest)
                 = remaining (first :: rest)).
  { unfold remaining, is_marker.
    now destruct (isinstance_str first && in_str_set first src_markers). }
  rewrite Hseg.
  destruct (texts (remaining (first :: rest))) as [ts|e]; [|reflexivity].
  cbn [Datatypes.app]. destruct (map _escape ts) as [|u us] eqn:Eu; [reflexivity|].
  unfold truncated, joined, Call.ret, MAX_POINTER_LENGTH.
  destruct (Nat.ltb_spec 2000 (String.length ("/" ++ join "/" (u :: us))));
    destruct (Nat.leb_spec (String.length ("/" ++ join "/" (u :: us))) 2000);
    try reflexivity; lia.
Qed.

(** ** Occurrences of the separator *)

Lemma count_app (c : ascii) (a b : string) :
  count c (a ++ b) = count c a + count c b.
Proof.
  induction a as [|d a IH]; simpl; [reflexivity|].
  rewrite IH. lia.
Qed.

Lemma count_absent (c : ascii) (s : string) :
  contains c s = false -> count c s = 0.
Proof.
  induction s as [|d s IH]; simpl; [reflexivity|].
  intros H. apply orb_false_iff in H as [E H].
  now rewrite E, IH.
Qed.

(** Joining units that are free of the separator puts one separator
    between any two neighbours, and no other. *)
Lemma count_join (c : ascii) (units : list string) :
  (forall u, In u units -> contains c u = false) ->
  count c (join (String c "") units) = List.length units - 1.
Proof.
  unfold join.
  induction units as [|u [|v us] IH]; intros H; try reflexivity.
  - cbn [String.concat List.length]. rewrite count_absent; [reflexivity|].
    apply H. now left.
  - change (String.concat (String c "") (u :: v :: us))
      with (u ++ String c "" ++ String.concat (String c "") (v :: us)).
    rewrite !count_app, IH by (intros w Hw; apply H; now right).
    rewrite count_absent by (apply H; now left).
    simpl. rewrite Ascii.eqb_refl. lia.
Qed.

(** ** Decimal texts *)

Lemma digit_plain (c : ascii) :
  is_digit c = true -> Ascii.eqb c "~" = false /\ Ascii.eqb c "/" = false.
Proof.
  destruct c as [[|] [|] [|] [|] [|] [|] [|] [|]];
    vm_compute; intros H; try discriminate H; split; reflexivity.
Qed.

Lemma all_digits_plain (s : string) :
  all_digits s = true -> contains "~" s = false /\ contains "/" s = false.
Proof.
  induction s as [|c s IH]; simpl; [now split|].
  intros H. apply andb_true_iff in H as [Hc Hs].
  destruct (digit_plain c Hc) as [-> ->].
  now apply IH.
Qed.

Lemma all_digits_uint (d : Decimal.uint) :
  all_digits (NilEmpty.string_of_uint d) = true.
Proof. induction d; simpl; auto. Qed.

Lemma all_digits_nat_text (d : Decimal.uint) :
  all_digits (NilZero.string_of_uint d) = true.
Proof. destruct d; try reflexivity; apply (all_digits_uint (_ d)). Qed.

(** The text of an integer holds neither "~" nor "/". *)
Lemma str_int_plain (z : Z) :
  contains "~" (str_int z) = false /\ contains "/" (str_int z) = false.
Proof.
  unfold str_int. destruct (Z.to_int z) as [d|d]; simpl.
  - apply all_digits_plain, all_digits_nat_text.
  - apply all_digits_plain, all_digits_nat_text.
Qed.

Lemma str_int_digits (z : Z) : (0 <= z)%Z -> all_digits (str_int z) = true.
Proof.
  intros Hz. unfold str_int.
  destruct z as [|p|p]; try lia; apply all_digits_nat_text.
Qed.

Lemma str_int_reads_back (z : Z) :
  option_map Z.of_int (NilZero.int_of_string (str_int z)) = Some z.
Proof.
  unfold str_int. rewrite NilZero.isi.
  - simpl. now rewrite DecimalZ.of_to.
  - destruct z; simpl; try discriminate.
    intros [= H]. now apply DecimalPos.Unsigned.to_uint_nonnil in H.
  - destruct z; simpl; try discriminate.
    intros [= H]. now apply DecimalPos.Unsigned.to_uint_nonnil in H.
Qed.

Lemma str_int_representable (z : Z) :
  representable (Int z) = true -> str (Int z) = Ok (str_int z).
Proof.
  unfold representable. simpl.
  now destruct (int_max_str_digits <? digits z)%nat.
Qed.

Lemma rendered_unit (v : value) :
  representable v = true -> rendered v = unit_of v.
Proof.
  intros Hv. unfold unit_of, text_of.
  destruct v as [|[|]|z|s|r]; try reflexivity.
  rewrite (str_int_representable z Hv). simpl.
  destruct (str_int_plain z). symmetry. now apply escape_plain.
Qed.

(** ** The claims about [build_from_pydantic_error] *)

(** Case analysis on [In x [a; b; ...]] for a list that is written out. *)
Ltac each_member H :=
  simpl in H;
  repeat (destruct H as [<- | H]; [reflexivity|]);
  contradiction H.

Lemma build_representable (loc : list value) :
  Forall (fun v => representable v = true) (remaining loc) ->
  build_from_pydantic_error loc
  = (Ok (truncated (joined (map unit_of (remaining loc)))), loc).
Proof.
  intros H. rewrite build_run, (texts_representable _ H).
  now rewrite map_map.
Qed.

(** A call raises only when [str] raises for one of the segments that
    remain. *)
Lemma build_raises_only_in_str (loc : list value) (e : exc) :
  fst (build_from_pydantic_error loc) = Raise e ->
  Exists (fun v => representable v = false) (remaining loc).
Proof.
  rewrite build_run. cbn [fst].
  destruct (texts (remaining loc)) eqn:Et; [discriminate|].
  intros _. exact (texts_raises _ _ Et).
Qed.

Lemma truncated_short (p : string) :
  String.length p <= 2000 -> truncated p = p.
Proof.
  intros H. unfold truncated.
  now destruct (Nat.leb_spec (String.length p) 2000); [|lia].
Qed.

Lemma truncated_long (p : string) :
  2000 < String.length p -> truncated p = slice_to 2000 p ++ "...".
Proof.
  intros H. unfold truncated.
  now destruct (Nat.leb_spec (String.length p) 2000); [lia|].
Qed.

(** C1.  When segments remain after the source marker is removed, the
    call returns "/" followed by the units joined with "/", each unit
    being the segment's text with every "~" replaced by "~0" first and
    every "/" by "~1" next (cut at the length bound when longer than
    that); no unit holds a "/", so every "/" of the pointer is one of
    the separators. *)
Theorem build_pointer_escapes_and_joins (loc : list value) :
  remaining loc <> [] ->
  Forall (fun v => representable v = true) (remaining loc) ->
  let units :=
    map (fun seg => replace "/" "~1" (replace "~" "~0" (text_of seg)))
      (remaining loc) in
  let pointer := "/" ++ join "/" units in
  fst (build_from_pydantic_error loc) = Ok (truncated pointer)
  /\ (String.length pointer <= 2000 ->
      fst (build_from_pydantic_error loc) = Ok pointer)
  /\ (forall u, In u units -> contains "/" u = false)
  /\ count "/" pointer = List.length units.
Proof.
  intros Hne Hrep units pointer.
  assert (Hu : forall u, In u units -> contains "/" u = false).
  { intros u Hin. apply in_map_iff in Hin as [seg [<- _]].
    apply (escape_no_slash (text_of seg)). }
  assert (Hrun : fst (build_from_pydantic_error loc) = Ok (truncated pointer)).
  { rewrite (build_representable loc Hrep). cbn [fst].
    change (map unit_of (remaining loc)) with units.
    unfold pointer, joined. subst units.
    destruct (remaining loc); [contradiction|reflexivity]. }
  repeat split; try assumption.
  - intros Hlen. now rewrite Hrun, truncated_short.
  - unfold pointer. change ("/" ++ join "/" units)
      with (String "/" (join "/" units)).
    cbn [count]. rewrite Ascii.eqb_refl, (count_join "/" units Hu).
    assert (List.length units <> 0).
    { subst units. rewrite length_map. now destruct (remaining loc). }
    lia.
Qed.

Lemma build_pointer_escapes_and_joins_witness :
  fst (build_from_pydantic_error [Str "body"; Str "a~b"; Str "c/d"])
  = Ok "/a~0b/c~1d".
Proof.
  refine (proj1 (proj2
    (build_pointer_escapes_and_joins [Str "body"; Str "a~b"; Str "c/d"]
       _ _)) _).
  - discriminate.
  - repeat constructor.
  - apply Nat.leb_le. reflexivity.
Defined.

(** The markers are the three texts "body", "json" and "value". *)
Lemma is_marker_listed (first : value) :
  is_marker first = true
  <-> exists m, first = Str m /\ In m ["body"; "json"; "value"].
Proof.
  unfold is_marker. destruct first as [|b|z|s|r]; cbn [isinstance_str andb];
    try (split; [discriminate | intros (m & E & _); discriminate E]).
  cbn [in_str_set src_markers]. rewrite existsb_exists. split.
  - intros (m & Hin & E). apply String.eqb_eq in E. subst m. now exists s.
  - intros (m & [= <-] & Hin). exists s. split; [exact Hin|].
    apply String.eqb_refl.
Qed.

(** C2.  An empty [loc] gives the empty text, and so does a [loc] that
    holds one of the markers "body", "json", "value" and nothing else.
    The marker is looked for at the first place only: behind a leading
    "body", "json" or "value" every segment is rendered, and after any
    other first segment all segments are, marker texts among them, each
    as its own text. *)
Theorem build_pointer_marker_first_only :
  build_from_pydantic_error [] = (Ok "", [])
  /\ build_from_pydantic_error [Str "body"] = (Ok "", [Str "body"])
  /\ build_from_pydantic_error [Str "json"] = (Ok "", [Str "json"])
  /\ build_from_pydantic_error [Str "value"] = (Ok "", [Str "value"])
  /\ (forall m rest,
        In m ["body"; "json"; "value"] ->
        Forall (fun v => representable v = true) rest ->
        fst (build_from_pydantic_error (Str m :: rest))
        = Ok (truncated (joined (map unit_of rest))))
  /\ (forall first rest,
        (forall m, In m ["body"; "json"; "value"] -> first <> Str m) ->
        Forall (fun v => representable v = true) (first :: rest) ->
        fst (build_from_pydantic_error (first :: rest))
        = Ok (truncated ("/" ++ join "/" (map unit_of (first :: rest)))))
  /\ unit_of (Str "body") = "body"
  /\ unit_of (Str "json") = "json"
  /\ unit_of (Str "value") = "value".
Proof.
  repeat (split; [reflexivity|]). split; [|split].
  - intros m rest Hm Hrep.
    assert (His : is_marker (Str m) = true)
      by (apply is_marker_listed; now exists m).
    rewrite build_representable; unfold remaining; rewrite His;
      [reflexivity | assumption].
  - intros first rest Hm Hrep.
    assert (His : is_marker first = false).
    { destruct (is_marker first) eqn:E; [|reflexivity].
      apply is_marker_listed in E as (m & -> & Hin).
      now contradiction (Hm m Hin). }
    rewrite build_representable; unfold remaining; rewrite His;
      [reflexivity | assumption].
  - repeat split.
Qed.

Lemma build_pointer_marker_first_only_witness :
  fst (build_from_pydantic_error [Str "user"; Str "body"; Str "json"])
  = Ok "/user/body/json"
  /\ fst (build_from_pydantic_error [Str "json"; Str "value"; Int 3])
     = Ok "/value/3"
  /\ fst (build_from_pydantic_error [Str "value"; Str "body"])
     = Ok "/body"
  /\ fst (build_from_pydantic_error [Str "body"; Str "json"])
     = Ok "/json".
Proof.
  destruct build_pointer_marker_first_only
    as (_ & _ & _ & _ & Hdrop & Hkeep & _).
  split; [|split; [|split]].
  - refine (eq_trans (Hkeep (Str "user") [Str "body"; Str "json"] _ _) _).
    + intros m Hm E. injection E as <-. simpl in Hm.
      destruct Hm as [H|[H|[H|[]]]]; discriminate H.
    + repeat constructor.
    + reflexivity.
  - refine (eq_trans (Hdrop "json" [Str "value"; Int 3] _ _) _).
    + simpl. tauto.
    + repeat constructor.
    + reflexivity.
  - refine (eq_trans (Hdrop "value" [Str "body"] _ _) _).
    + simpl. tauto.
    + repeat constructor.
    + reflexivity.
  - refine (eq_trans (Hdrop "body" [Str "json"] _ _) _).
    + simpl. tauto.
    + repeat constructor.
    + reflexivity.
Defined.

(** C3.  A pointer of more than 2000 characters comes back as its first
    2000 characters followed by "...", 2003 characters in all; a pointer
    of 2000 characters or fewer comes back as it is. *)
Theorem build_pointer_length_bound (loc : list value) :
  Forall (fun v => representable v = true) (remaining loc) ->
  let pointer := joined (map unit_of (remaining loc)) in
  (2000 < String.length pointer ->
     fst (build_from_pydantic_error loc) = Ok (slice_to 2000 pointer ++ "...")
     /\ String.length (slice_to 2000 pointer) = 2000
     /\ String.length (slice_to 2000 pointer ++ "...") = 2003)
  /\ (String.length pointer <= 2000 ->
     fst (build_from_pydantic_error loc) = Ok pointer).
Proof.
  intros Hrep pointer.
  rewrite (build_representable loc Hrep). cbn [fst]. fold pointer.
  split.
  - intros Hlong.
    assert (Hcut : String.length (slice_to 2000 pointer) = 2000)
      by (rewrite length_slice_to; lia).
    repeat split.
    + now rewrite truncated_long.
    + exact Hcut.
    + rewrite length_app, Hcut. reflexivity.
  - intros Hshort. now rewrite truncated_short.
Qed.

Lemma build_pointer_length_bound_witness :
  fst (build_from_pydantic_error [Str "body"; Str (times "a/" 1000)])
  = Ok (slice_to 2000 ("/" ++ times "a~1" 1000) ++ "...")
  /\ fst (build_from_pydantic_error [Str "body"; Str (times "a" 1999)])
     = Ok ("/" ++ times "a" 1999).
Proof.
  split.
  - refine (proj1 (proj1
      (build_pointer_length_bound [Str "body"; Str (times "a/" 1000)] _) _)).
    + repeat constructor.
    + apply Nat.ltb_lt. vm_compute. reflexivity.
  - refine (proj2
      (build_pointer_length_bound [Str "body"; Str (times "a" 1999)] _) _).
    + repeat constructor.
    + apply Nat.leb_le. vm_compute. reflexivity.
Defined.

(** C4.  Each remaining segment enters the pointer in its text form: an
    integer as its decimal digits (a text of digits that reads back as
    the integer, behind a "-" when negative), [None] as "None", [True]
    as "True", and any other segment by its own text. *)
Theorem build_pointer_renders_segments (loc : list value) :
  remaining loc <> [] ->
  Forall (fun v => representable v = true) (remaining loc) ->
  fst (build_from_pydantic_error loc)
  = Ok (truncated ("/" ++ join "/" (map rendered (remaining loc))))
  /\ (forall z, representable (Int z) = true ->
                str (Int z) = Ok (str_int z)
                /\ option_map Z.of_int (NilZero.int_of_string (str_int z))
                   = Some z)
  /\ (forall z, (0 <= z)%Z -> all_digits (str_int z) = true)
  /\ rendered NoneV = "None"
  /\ rendered (Bool true) = "True".
Proof.
  intros Hne Hrep. split.
  - rewrite (build_representable loc Hrep). cbn [fst].
    rewrite (map_ext_in rendered unit_of).
    + unfold joined. destruct (remaining loc); [contradiction|reflexivity].
    + intros v Hin. apply rendered_unit.
      exact (proj1 (Forall_forall _ _) Hrep v Hin).
  - split; [|split; [exact str_int_digits | split; reflexivity]].
    intros z Hz. split;
      [now apply str_int_representable | apply str_int_reads_back].
Qed.

Lemma build_pointer_renders_segments_witness :
  fst (build_from_pydantic_error [Str "json"; Int 123; NoneV; Bool true])
  = Ok "/123/None/True".
Proof.
  refine (proj1 (build_pointer_renders_segments
                   [Str "json"; Int 123; NoneV; Bool true] _ _)).
  - discriminate.
  - repeat constructor.
Defined.

(** C5.  On a finite sequence of representable segments the call returns
    a text and raises nothing. *)
Theorem build_pointer_returns_text (loc : list value) :
  Forall (fun v => representable v = true) loc ->
  exists pointer : string,
    fst (build_from_pydantic_error loc) = Ok pointer.
Proof.
  intros Hrep.
  assert (Hrem : Forall (fun v => representable v = true) (remaining loc)).
  { destruct loc as [|first rest]; [constructor|].
    unfold remaining. destruct (is_marker first); [|assumption].
    now inversion Hrep. }
  rewrite (build_representable loc Hrem). now eexists.
Qed.

Lemma build_pointer_returns_text_witness :
  exists pointer : string,
    fst (build_from_pydantic_error
           [Str "value"; Str "x"; Int 2; Obj (Ok "<Point>"); Bool false])
    = Ok pointer.
Proof.
  apply build_pointer_returns_text. repeat constructor.
Defined.

(** C6.  The sequence passed in holds the same items after the call as
    before it, whether the call returns or raises. *)
Theorem build_pointer_leaves_loc (loc : list value) :
  snd (build_from_pydantic_error loc) = loc.
Proof. now rewrite build_run. Qed.

Example ex_append_shows (v : value) (st : Call.store) :
  snd (Call.append v st) = (st ++ [v])%list.
Proof. reflexivity. Qed.

Example ex_str_raises (e : exc) :
  build_from_pydantic_error [Str "body"; Str "a"; Obj (Raise e); Int 1]
  = (Raise e, [Str "body"; Str "a"; Obj (Raise e); Int 1]).
Proof. reflexivity. Qed.

(** ** The claims about status codes and bodies *)

Section BodyGate.

Variable int_of_text : string -> result Z.

Lemma is_body_allowed_int (n : Z) :
  is_body_allowed_for_status_code int_of_text (CodeInt n)
  = Ok (negb (no_body n)).
Proof.
  unfold is_body_allowed_for_status_code, no_body. cbn.
  now rewrite !orb_false_r, !orb_assoc.
Qed.

Lemma no_body_iff (n : Z) :
  no_body n = true <-> (n < 200 \/ n = 204 \/ n = 205 \/ n = 304)%Z.
Proof. unfold no_body. lia. Qed.

Lemma http_exception_handler_run (exc : HTTPException) :
  http_exception_handler int_of_text exc
  = Ok (if no_body (http_status_code exc)
        then Response (http_status_code exc) (http_headers exc)
        else JSONResponse (JDict [("detail", http_detail exc)])
               (http_status_code exc) (http_headers exc) "application/json").
Proof.
  unfold http_exception_handler. rewrite is_body_allowed_int.
  now destruct (no_body (http_status_code exc)).
Qed.

End BodyGate.

(** C7.  An HTTP exception whose status code (100 or above, as HTTP
    status codes are) is in the 1xx class or is 204, 205 or 304 is
    answered with status and headers and no body; any other status code
    is answered with the JSON body [{"detail": ...}].
    [is_body_allowed_for_status_code] is false exactly for those codes
    and true for the others. *)
Theorem http_exception_body_gate (int_of_text : string -> result Z)
  (exc : HTTPException) :
  let n := http_status_code exc in
  (100 <= n)%Z ->
  (is_body_allowed_for_status_code int_of_text (CodeInt n) = Ok false
   <-> (100 <= n <= 199 \/ n = 204 \/ n = 205 \/ n = 304)%Z)
  /\ (is_body_allowed_for_status_code int_of_text (CodeInt n) = Ok true
      <-> ~ (100 <= n <= 199 \/ n = 204 \/ n = 205 \/ n = 304)%Z)
  /\ ((100 <= n <= 199 \/ n = 204 \/ n = 205 \/ n = 304)%Z ->
      http_exception_handler int_of_text exc
      = Ok (Response n (http_headers exc))
      /\ response_body (Response n (http_headers exc)) = None)
  /\ (~ (100 <= n <= 199 \/ n = 204 \/ n = 205 \/ n = 304)%Z ->
      http_exception_handler int_of_text exc
      = Ok (JSONResponse (JDict [("detail", http_detail exc)]) n
              (http_headers exc) "application/json")).
Proof.
  intros n Hcode. rewrite http_exception_handler_run, is_body_allowed_int.
  fold n. pose proof (no_body_iff n) as Hn.
  assert (Hc : no_body n = true
               <-> (100 <= n <= 199 \/ n = 204 \/ n = 205 \/ n = 304)%Z)
    by (rewrite Hn; lia).
  split; [|split; [|split]].
  - rewrite <- Hc. destruct (no_body n); simpl; split; congruence.
  - rewrite <- Hc. destruct (no_body n); simpl; split; congruence.
  - intros H. apply Hc in H. now rewrite H.
  - intros H. destruct (no_body n); [|reflexivity].
    exfalso. apply H, Hc. reflexivity.
Qed.

Lemma http_exception_body_gate_witness :
  http_exception_handler int_rejects
    {| http_status_code := 204; http_detail := JStr "gone";
       http_headers := Some [("x-request-id", "7")] |}
  = Ok (Response 204 (Some [("x-request-id", "7")]))
  /\ http_exception_handler int_rejects
       {| http_status_code := 101; http_detail := JStr "switching";
          http_headers := None |}
     = Ok (Response 101 None)
  /\ http_exception_handler int_rejects
       {| http_status_code := 404; http_detail := JStr "Not Found";
          http_headers := None |}
     = Ok (JSONResponse (JDict [("detail", JStr "Not Found")]) 404 None
             "application/json").
Proof.
  split; [|split].
  - refine (proj1 (proj1 (proj2 (proj2 (http_exception_body_gate int_rejects
      {| http_status_code := 204; http_detail := JStr "gone";
         http_headers := Some [("x-request-id", "7")] |} _))) _)).
    + cbn. lia.
    + cbn. lia.
  - refine (proj1 (proj1 (proj2 (proj2 (http_exception_body_gate int_rejects
      {| http_status_code := 101; http_detail := JStr "switching";
         http_headers := None |} _))) _)).
    + cbn. lia.
    + cbn. lia.
  - refine (proj2 (proj2 (proj2 (http_exception_body_gate int_rejects
      {| http_status_code := 404; http_detail := JStr "Not Found";
         http_headers := None |} _))) _).
    + cbn. lia.
    + cbn. lia.
Defined.

(** C10.  [None] allows a body, and so does each of the pattern texts
    "default", "1XX", "2XX", "3XX", "4XX", "5XX"; the answer is there
    whatever [int()] would make of the text, also when it would raise. *)
Theorem body_allowed_none_and_patterns (int_of_text : string -> result Z) :
  is_body_allowed_for_status_code int_of_text CodeNone = Ok true
  /\ (forall p,
        In p ["default"; "1XX"; "2XX"; "3XX"; "4XX"; "5XX"] ->
        is_body_allowed_for_status_code int_of_text (CodeStr p) = Ok true
        /\ is_body_allowed_for_status_code int_rejects (CodeStr p) = Ok true).
Proof.
  split; [reflexivity|].
  intros p Hp. split; each_member Hp.
Qed.

Lemma body_allowed_none_and_patterns_witness :
  is_body_allowed_for_status_code int_rejects (CodeStr "2XX") = Ok true
  /\ int_ int_rejects (CodeStr "2XX")
     = Raise (Exc ValueError "invalid literal for int() with base 10").
Proof.
  split; [|reflexivity].
  refine (proj2 (proj2 (body_allowed_none_and_patterns int_rejects) "2XX" _)).
  simpl. tauto.
Defined.

(** ** The claims about [ErrorMiddleware] *)

Lemma last_sent_send (r : response) (w : world) :
  last_sent (send_response r w) = Some r.
Proof.
  unfold last_sent, send_response. cbn [sent].
  rewrite map_app. cbn [map]. apply last_last.
Qed.

(** An HTTP request whose application raises: the three ways out. *)
Lemma call_on_raise (env : imports) (self : ErrorMiddleware.ErrorMiddleware)
  (sc : scope) (w w1 : world) (e : exc) :
  is_http sc = true ->
  app self sc w = (Raise e, w1) ->
  __call__ env self sc w
  = if caught env e
    then (Ok tt,
          World (sent w1 ++
                 [problem_response
                    (if debug self then problem_with_detail (exc_text e)
                     else generic_problem)])
                (logged w1 ++ ["Unhandled exception in request"]))
    else (Raise e, w1).
Proof.
  unfold is_http, __call__, caught. intros -> ->. cbn [negb].
  destruct (isinstance e Exception); [|reflexivity].
  destruct (and_isinstance (imp_StarletteHTTPException env) e); [reflexivity|].
  destruct (and_isinstance (imp_RequestValidationError env) e); [reflexivity|].
  now destruct (debug self).
Qed.

Lemma caught_installed (e : exc) :
  caught installed e = isinstance e Exception && negb (has_own_handler e).
Proof.
  unfold caught, has_own_handler. cbn [installed and_isinstance
    imp_StarletteHTTPException imp_RequestValidationError].
  now rewrite negb_orb, andb_assoc.
Qed.

(** C8.  An exception the middleware catches on an HTTP request is
    answered with status 500 and a Problem Details body.  With the debug
    flag off the detail is "Internal Server Error" and the body is the
    same for any two requests and exceptions; with the flag on the detail
    is the text of the exception. *)
Theorem unhandled_exception_body (env : imports)
  (self : ErrorMiddleware.ErrorMiddleware) (sc : scope) (w w1 : world)
  (e : exc) :
  is_http sc = true ->
  app self sc w = (Raise e, w1) ->
  caught env e = true ->
  last_sent (snd (__call__ env self sc w))
  = Some (JSONResponse
            (JDict [("type", JStr "about:blank");
                    ("title", JStr "Internal Server Error");
                    ("status", JInt 500);
                    ("detail", JStr (if debug self then exc_text e
                                     else "Internal Server Error"))])
            500 None "application/problem+json")
  /\ (debug self = false ->
      forall (self' : ErrorMiddleware.ErrorMiddleware) (sc' : scope)
             (w' w1' : world) (e' : exc),
        debug self' = false ->
        is_http sc' = true ->
        app self' sc' w' = (Raise e', w1') ->
        caught env e' = true ->
        last_sent (snd (__call__ env self' sc' w'))
        = last_sent (snd (__call__ env self sc w))).
Proof.
  intros Hhttp Happ Hc.
  rewrite (call_on_raise env self sc w w1 e Hhttp Happ), Hc. cbn [snd].
  split.
  - change (World (sent w1 ++ [?r]) (logged w1 ++ [?m]))
      with (send_response r (World (sent w1) (logged w1 ++ [m]))).
    rewrite last_sent_send. now destruct (debug self).
  - intros Hd self' sc' w' w1' e' Hd' Hhttp' Happ' Hc'.
    rewrite (call_on_raise env self' sc' w' w1' e' Hhttp' Happ'), Hc'.
    cbn [snd]. rewrite Hd, Hd'.
    unfold last_sent. cbn [sent]. rewrite !map_app. cbn [map].
    now rewrite !last_last.
Qed.

Lemma unhandled_exception_body_witness :
  last_sent (snd (__call__ installed
     {| app := raising_app (Exc RuntimeError "db password is hunter2");
        debug := false |}
     [("type", "http")] (World [] [])))
  = Some (problem_response generic_problem).
Proof.
  refine (proj1 (unhandled_exception_body installed
     {| app := raising_app (Exc RuntimeError "db password is hunter2");
        debug := false |}
     [("type", "http")] (World [] []) (World [] [])
     (Exc RuntimeError "db password is hunter2") _ _ _));
    reflexivity.
Defined.

(** C9.  On an HTTP request, an HTTP exception or a request-validation
    error leaves the middleware as it entered: raised again, nothing
    logged, nothing sent.  The catch-all takes the other exceptions only:
    it writes one log record, sends the 500 Problem Details response and
    returns. *)
Theorem known_exceptions_pass_through
  (self : ErrorMiddleware.ErrorMiddleware) (sc : scope) (w w1 : world)
  (e : exc) :
  is_http sc = true ->
  app self sc w = (Raise e, w1) ->
  (has_own_handler e = true ->
     __call__ installed self sc w = (Raise e, w1))
  /\ (has_own_handler e = false -> isinstance e Exception = true ->
     __call__ installed self sc w
     = (Ok tt,
        World (sent w1 ++
               [problem_response
                  (if debug self then problem_with_detail (exc_text e)
                   else generic_problem)])
              (logged w1 ++ ["Unhandled exception in request"])))
  /\ (fst (__call__ installed self sc w) = Ok tt ->
     has_own_handler e = false)
  /\ (logged (snd (__call__ installed self sc w)) <> logged w1 ->
     has_own_handler e = false).
Proof.
  intros Hhttp Happ.
  rewrite (call_on_raise installed self sc w w1 e Hhttp Happ).
  rewrite caught_installed.
  destruct (has_own_handler e) eqn:Hown.
  - rewrite andb_false_r. repeat split; try discriminate.
    cbn [snd]. intros H. now contradiction H.
  - rewrite andb_true_r. repeat split.
    + discriminate.
    + now intros _ ->.
Qed.

Lemma known_exceptions_pass_through_witness :
  __call__ installed
    {| app := raising_app (Exc FastAPIHTTPException "404: Not Found");
       debug := true |}
    [("type", "http")] (World [] ["startup"])
  = (Raise (Exc FastAPIHTTPException "404: Not Found"), World [] ["startup"])
  /\ __call__ installed
       {| app := raising_app (Exc ValueError "bad row 17"); debug := false |}
       [("type", "http")] (World [] ["startup"])
     = (Ok tt,
        World [problem_response generic_problem]
              ["startup"; "Unhandled exception in request"]).
Proof.
  split.
  - refine (proj1 (known_exceptions_pass_through
      {| app := raising_app (Exc FastAPIHTTPException "404: Not Found");
         debug := true |}
      [("type", "http")] (World [] ["startup"]) (World [] ["startup"])
      (Exc FastAPIHTTPException "404: Not Found") _ _) _); reflexivity.
  - refine (proj1 (proj2 (known_exceptions_pass_through
      {| app := raising_app (Exc ValueError "bad row 17"); debug := false |}
      [("type", "http")] (World [] ["startup"]) (World [] ["startup"])
      (Exc ValueError "bad row 17") _ _)) _ _); reflexivity.
Defined.

(** ** Further properties of [_escape] *)

Lemma escape_single_pass (s : string) : _escape s = escape_each s.
Proof.
  unfold _escape.
  induction s as [|c s IH]; [reflexivity|].
  cbn [replace escape_each]. unfold escape_char.
  destruct (Ascii.eqb_spec c "~") as [->|Ht].
  - cbn. now rewrite IH.
  - cbn [replace]. destruct (Ascii.eqb_spec c "/") as [->|Hs].
    + cbn. now rewrite IH.
    + cbn. now rewrite IH.
Qed.

Lemma unescape_escape_each (s : string) : unescape (escape_each s) = s.
Proof.
  induction s as [|c s IH]; [reflexivity|].
  cbn [escape_each]. unfold escape_char.
  destruct (Ascii.eqb_spec c "~") as [->|Ht].
  - cbn. now rewrite IH.
  - destruct (Ascii.eqb_spec c "/") as [->|Hs].
    + cbn. now rewrite IH.
    + cbn [append unescape].
      destruct (Ascii.eqb_spec c "~"); [contradiction|].
      now rewrite IH.
Qed.

Lemma unescape_escape (s : string) : unescape (_escape s) = s.
Proof. rewrite escape_single_pass. apply unescape_escape_each. Qed.

Lemma escape_inj (s t : string) : _escape s = _escape t -> s = t.
Proof.
  intros E. rewrite <- (unescape_escape s), <- (unescape_escape t).
  now rewrite E.
Qed.

(** X1.  Escaping loses nothing: reading a unit back by the RFC 6901
    rules gives the segment's text, so two texts with the same unit are
    the same text. *)
Theorem escape_reads_back :
  (forall s, unescape (_escape s) = s)
  /\ (forall s t, _escape s = _escape t -> s = t).
Proof. split; [exact unescape_escape | exact escape_inj]. Qed.

Lemma escape_reads_back_witness :
  _escape "~/a~1" = "~0~1a~01" /\ unescape "~0~1a~01" = "~/a~1".
Proof.
  split; [reflexivity|].
  exact (proj1 escape_reads_back "~/a~1").
Defined.

(** X2.  A unit is well formed: each "~" in it is followed by "0" or
    "1". *)
Theorem escape_well_formed (s : string) : well_escaped (_escape s) = true.
Proof.
  rewrite escape_single_pass.
  induction s as [|c s IH]; [reflexivity|].
  cbn [escape_each]. unfold escape_char.
  destruct (Ascii.eqb_spec c "~") as [->|Ht].
  - cbn. exact IH.
  - destruct (Ascii.eqb_spec c "/") as [->|Hs].
    + cbn. exact IH.
    + cbn [append well_escaped].
      destruct (Ascii.eqb_spec c "~"); [contradiction|exact IH].
Qed.

(** X3.  A unit is longer than the text by one character for each "~"
    and each "/" in it, so at most twice as long. *)
Theorem escape_length (s : string) :
  String.length (_escape s) = String.length s + count "~" s + count "/" s
  /\ String.length (_escape s) <= 2 * String.length s.
Proof.
  rewrite escape_single_pass.
  induction s as [|c s [IH1 IH2]]; [split; reflexivity|].
  cbn [escape_each String.length count]. rewrite length_app, IH1.
  unfold escape_char.
  destruct (Ascii.eqb_spec c "~") as [->|Ht].
  - cbn. lia.
  - destruct (Ascii.eqb_spec c "/") as [->|Hs]; cbn; lia.
Qed.

(** ** Further properties of [build_from_pydantic_error] *)

Lemma truncated_length (p : string) : String.length (truncated p) <= 2003.
Proof.
  unfold truncated.
  destruct (Nat.leb_spec (String.length p) 2000) as [H|H]; [lia|].
  rewrite length_app, length_slice_to. cbn [String.length]. lia.
Qed.

Lemma texts_length (segs : list value) (ts : list string) :
  texts segs = Ok ts -> List.length ts = List.length segs.
Proof.
  revert ts. induction segs as [|v segs IH]; intros ts; simpl.
  - now intros [= <-].
  - destruct (str v); [|discriminate].
    destruct (texts segs) as [ts'|]; [|discriminate].
    intros [= <-]. simpl. f_equal. now apply IH.
Qed.

Lemma build_length_bound (loc : list value) (p : string) :
  fst (build_from_pydantic_error loc) = Ok p -> String.length p <= 2003.
Proof.
  rewrite build_run. cbn [fst].
  destruct (texts (remaining loc)); [|discriminate].
  intros [= <-]. apply truncated_length.
Qed.

(** X4.  Whatever the segments are, a pointer that is returned has at
    most 2003 characters. *)
Theorem build_pointer_at_most_2003 (loc : list value) (p : string) :
  fst (build_from_pydantic_error loc) = Ok p -> String.length p <= 2003.
Proof. exact (build_length_bound loc p). Qed.

Lemma build_pointer_at_most_2003_witness :
  String.length (slice_to 2000 ("/" ++ times "~0" 1500) ++ "...") <= 2003.
Proof.
  apply (build_pointer_at_most_2003 [Str (times "~" 1500)]).
  vm_compute. reflexivity.
Defined.

Lemma build_shape (loc : list value) (p : string) :
  fst (build_from_pydantic_error loc) = Ok p ->
  (remaining loc = [] /\ p = "")
  \/ (remaining loc <> [] /\ exists rest, p = String "/" rest).
Proof.
  rewrite build_run. cbn [fst].
  destruct (texts (remaining loc)) as [ts|] eqn:Et; [|discriminate].
  intros [= <-]. apply texts_length in Et.
  destruct (remaining loc) as [|v segs].
  - left. destruct ts; [now split | discriminate Et].
  - right. split; [discriminate|].
    destruct ts as [|t ts]; [discriminate Et|].
    cbn [map joined]. unfold truncated.
    destruct (String.length ("/" ++ join "/" (_escape t :: map _escape ts))
              <=? 2000)%nat.
    + now eexists.
    + unfold slice_to. cbn [append substring]. now eexists.
Qed.

(** X5.  A pointer that is returned is empty exactly when no segment
    remains after the marker; otherwise it starts with "/". *)
Theorem build_pointer_shape (loc : list value) (p : string) :
  fst (build_from_pydantic_error loc) = Ok p ->
  (remaining loc = [] /\ p = "")
  \/ (remaining loc <> [] /\ exists rest, p = String "/" rest).
Proof. exact (build_shape loc p). Qed.

Lemma build_pointer_shape_witness :
  (remaining [Str "json"; Int 4] = [] /\ "/4" = "")
  \/ (remaining [Str "json"; Int 4] <> [] /\ exists rest, "/4" = String "/" rest).
Proof.
  apply (build_pointer_shape [Str "json"; Int 4] "/4"). reflexivity.
Defined.

Lemma build_raises_iff (loc : list value) :
  (exists e, fst (build_from_pydantic_error loc) = Raise e)
  <-> Exists (fun v => representable v = false) (remaining loc).
Proof.
  split.
  - intros [e He]. exact (build_raises_only_in_str loc e He).
  - intros Hex. rewrite build_run. cbn [fst].
    destruct (texts (remaining loc)) as [ts|e] eqn:Et; [|now exists e].
    exfalso. revert ts Et.
    induction Hex as [v segs Hv|v segs _ IH]; intros ts; simpl.
    + unfold representable in Hv. destruct (str v); discriminate.
    + destruct (str v); [|discriminate].
      destruct (texts segs) as [ts'|]; [|discriminate].
      intros _. now apply (IH ts').
Qed.

(** X6.  The call raises exactly when [str] raises for one of the
    segments that remain; a leading marker is never turned into text. *)
Theorem build_pointer_raises_iff (loc : list value) :
  (exists e, fst (build_from_pydantic_error loc) = Raise e)
  <-> Exists (fun v => representable v = false) (remaining loc).
Proof. exact (build_raises_iff loc). Qed.

(** X7.  Putting a source marker in front of a [loc] that does not start
    with one changes nothing in the result. *)
Theorem build_pointer_marker_prefix (m : string) (loc : list value) :
  In m src_markers ->
  remaining loc = loc ->
  fst (build_from_pydantic_error (Str m :: loc))
  = fst (build_from_pydantic_error loc).
Proof.
  intros Hm Hloc. rewrite !build_run. cbn [fst]. rewrite Hloc.
  assert (Hr : remaining (Str m :: loc) = loc).
  { unfold remaining.
    assert (is_marker (Str m) = true) as -> by each_member Hm.
    reflexivity. }
  now rewrite Hr.
Qed.

Lemma build_pointer_marker_prefix_witness :
  fst (build_from_pydantic_error [Str "value"; Str "user"; Str "body"])
  = fst (build_from_pydantic_error [Str "user"; Str "body"]).
Proof.
  apply build_pointer_marker_prefix.
  - simpl. tauto.
  - reflexivity.
Defined.

(** ** Pointers and the segments they come from *)

Lemma app_empty_r (s : string) : s ++ "" = s.
Proof. induction s as [|c s IH]; simpl; [reflexivity | now rewrite IH]. Qed.

Lemma app_assoc_text (a b c : string) : (a ++ b) ++ c = a ++ b ++ c.
Proof. induction a as [|d a IH]; simpl; [reflexivity | now rewrite IH]. Qed.

(** Two texts free of a character that agree up to and behind an
    occurrence of it agree in both parts. *)
Lemma app_sep_inj (c : ascii) (u v a b : string) :
  contains c u = false -> contains c v = false ->
  u ++ String c a = v ++ String c b -> u = v /\ a = b.
Proof.
  revert v. induction u as [|d u IH]; intros [|e v] Hu Hv E; simpl in *.
  - now injection E as ->.
  - injection E as <- _. now rewrite Ascii.eqb_refl in Hv.
  - injection E as -> _. now rewrite Ascii.eqb_refl in Hu.
  - injection E as <- E.
    apply orb_false_iff in Hu as [_ Hu]. apply orb_false_iff in Hv as [_ Hv].
    destruct (IH v Hu Hv E) as [-> ->]. now split.
Qed.

Lemma sep_free_no_split (c : ascii) (u v b : string) :
  contains c u = false -> u <> v ++ String c b.
Proof.
  intros Hu ->. rewrite contains_app in Hu. simpl in Hu.
  rewrite Ascii.eqb_refl, orb_true_r in Hu. discriminate.
Qed.

Lemma join_cons2 (sep u v : string) (vs : list string) :
  join sep (u :: v :: vs) = u ++ sep ++ join sep (v :: vs).
Proof. reflexivity. Qed.

(** Units free of the separator can be read back from their join. *)
Lemma join_inj (c : ascii) (us vs : list string) :
  us <> [] -> vs <> [] ->
  (forall u, In u us -> contains c u = false) ->
  (forall v, In v vs -> contains c v = false) ->
  join (String c "") us = join (String c "") vs -> us = vs.
Proof.
  revert vs. induction us as [|u [|u2 us] IH]; intros vs Hus Hvs Fu Fv E;
    [contradiction| |];
    destruct vs as [|v [|v2 vs]]; try contradiction.
  - cbn in E. now subst.
  - rewrite join_cons2 in E. change (join (String c "") [u]) with u in E.
    exfalso. apply (sep_free_no_split c u v _ (Fu u (or_introl eq_refl)) E).
  - rewrite join_cons2 in E. change (join (String c "") [v]) with v in E.
    exfalso. symmetry in E.
    apply (sep_free_no_split c v u _ (Fv v (or_introl eq_refl)) E).
  - rewrite !join_cons2 in E.
    apply app_sep_inj in E as [-> E];
      [| apply Fu; now left | apply Fv; now left].
    f_equal. apply IH; try discriminate; try assumption.
    + intros w Hw. apply Fu. now right.
    + intros w Hw. apply Fv. now right.
Qed.

Lemma joined_inj (us vs : list string) :
  (forall u, In u us -> contains "/" u = false) ->
  (forall v, In v vs -> contains "/" v = false) ->
  joined us = joined vs -> us = vs.
Proof.
  intros Fu Fv E. destruct us as [|u us], vs as [|v vs];
    try reflexivity; try discriminate E.
  unfold joined in E. injection E as E.
  now apply (join_inj "/"); try discriminate.
Qed.

Lemma truncated_within (x : string) :
  String.length (truncated x) <= 2000 -> truncated x = x.
Proof.
  unfold truncated.
  destruct (Nat.leb_spec (String.length x) 2000) as [H|H]; [reflexivity|].
  rewrite length_app, length_slice_to. cbn [String.length]. lia.
Qed.

Lemma map_escape_inj (ts ts' : list string) :
  map _escape ts = map _escape ts' -> ts = ts'.
Proof.
  revert ts'. induction ts as [|t ts IH]; intros [|t' ts'] E;
    try reflexivity; try discriminate E.
  injection E as Et E. f_equal; [|now apply IH].
  now apply escape_inj.
Qed.

Lemma escaped_units_slash_free (ts : list string) (u : string) :
  In u (map _escape ts) -> contains "/" u = false.
Proof.
  intros Hin. apply in_map_iff in Hin as [t [<- _]]. apply escape_no_slash.
Qed.

(** X8.  A pointer of at most 2000 characters tells the texts of the
    segments it was built from: two [loc]s with that same pointer have
    the same texts left after the marker. *)
Theorem build_pointer_injective (loc loc' : list value) (p : string) :
  fst (build_from_pydantic_error loc) = Ok p ->
  fst (build_from_pydantic_error loc') = Ok p ->
  String.length p <= 2000 ->
  texts (remaining loc) = texts (remaining loc').
Proof.
  rewrite !build_run. cbn [fst].
  destruct (texts (remaining loc)) as [ts|]; [|discriminate].
  destruct (texts (remaining loc')) as [ts'|]; [|discriminate].
  intros [= <-] [= E] Hlen.
  rewrite truncated_within in E by (rewrite E; exact Hlen).
  rewrite (truncated_within _ Hlen) in E.
  f_equal. apply map_escape_inj. symmetry.
  apply joined_inj; [apply escaped_units_slash_free .. | exact E].
Qed.

Lemma build_pointer_injective_witness :
  texts (remaining [Str "body"; Str "a/b"; Int 1])
  = texts (remaining [Str "a/b"; Str "1"]).
Proof.
  apply (build_pointer_injective _ _ "/a~1b/1"); try reflexivity.
  apply Nat.leb_le. reflexivity.
Defined.

Lemma texts_app (a b : list value) :
  texts (a ++ b)%list
  = match texts a, texts b with
    | Ok ta, Ok tb => Ok (ta ++ tb)%list
    | Raise e, _ => Raise e
    | Ok _, Raise e => Raise e
    end.
Proof.
  induction a as [|v a IH]; simpl.
  - now destruct (texts b).
  - destruct (str v); [|reflexivity]. rewrite IH.
    destruct (texts a); [|reflexivity]. now destruct (texts b).
Qed.

Lemma join_app (sep : string) (us : list string) (v : string)
  (vs : list string) :
  us <> [] ->
  join sep (us ++ v :: vs)%list = join sep us ++ sep ++ join sep (v :: vs).
Proof.
  induction us as [|u [|u2 us] IH]; intros Hne; [contradiction| |].
  - reflexivity.
  - change ((u :: u2 :: us) ++ v :: vs)%list
      with (u :: u2 :: (us ++ v :: vs))%list.
    rewrite !join_cons2.
    change (u2 :: (us ++ v :: vs))%list with ((u2 :: us) ++ v :: vs)%list.
    rewrite IH by discriminate. now rewrite !app_assoc_text.
Qed.

Lemma joined_app (us vs : list string) :
  joined (us ++ vs)%list = joined us ++ joined vs.
Proof.
  destruct us as [|u us]; [reflexivity|].
  destruct vs as [|v vs].
  - now rewrite app_nil_r, app_empty_r.
  - change (joined ((u :: us) ++ v :: vs)%list)
      with ("/" ++ join "/" ((u :: us) ++ v :: vs)%list).
    rewrite join_app by discriminate.
    unfold joined. now rewrite !app_assoc_text.
Qed.

(** X9.  Pointers compose: when [a] has an item and [b] does not start
    with a marker, the pointer of [a ++ b] is the pointer of [a] followed
    by the pointer of [b], as long as the two fit in 2000 characters. *)
Theorem build_pointer_concat (a b : list value) (pa pb : string) :
  a <> [] ->
  remaining b = b ->
  fst (build_from_pydantic_error a) = Ok pa ->
  fst (build_from_pydantic_error b) = Ok pb ->
  String.length pa + String.length pb <= 2000 ->
  fst (build_from_pydantic_error (a ++ b)%list) = Ok (pa ++ pb).
Proof.
  intros Ha Hb. rewrite !build_run. cbn [fst]. rewrite Hb.
  assert (Hr : remaining (a ++ b)%list = (remaining a ++ b)%list).
  { destruct a as [|first rest]; [contradiction|].
    unfold remaining. cbn [Datatypes.app]. now destruct (is_marker first). }
  rewrite Hr, texts_app.
  destruct (texts (remaining a)) as [ta|]; [|discriminate].
  destruct (texts b) as [tb|]; [|discriminate].
  intros [= <-] [= <-] Hlen.
  rewrite map_app, joined_app.
  rewrite (truncated_within (joined (map _escape ta))) in * by lia.
  rewrite (truncated_within (joined (map _escape tb))) in * by lia.
  rewrite truncated_short; [reflexivity|]. rewrite length_app. lia.
Qed.

Lemma build_pointer_concat_witness :
  fst (build_from_pydantic_error
         ([Str "body"; Str "items"; Int 3] ++ [Str "tags"; Int 0])%list)
  = Ok ("/items/3" ++ "/tags/0").
Proof.
  apply build_pointer_concat; try reflexivity; try discriminate.
  apply Nat.leb_le. reflexivity.
Defined.

(** ** [is_body_allowed_for_status_code] on texts *)

(** X10.  The call raises only for a text that is none of the patterns
    and that [int()] turns down, and then with the exception of [int()];
    a text that [int()] accepts is treated as the integer it spells. *)
Theorem body_allowed_error_behaviour (int_of_text : string -> result Z)
  (status_code : status_code_arg) :
  (forall e,
     is_body_allowed_for_status_code int_of_text status_code = Raise e ->
     exists s, status_code = CodeStr s
               /\ in_patterns status_code = false
               /\ int_of_text s = Raise e)
  /\ (forall s n,
     status_code = CodeStr s -> in_patterns status_code = false ->
     int_of_text s = Ok n ->
     is_body_allowed_for_status_code int_of_text status_code
     = is_body_allowed_for_status_code int_of_text (CodeInt n)).
Proof.
  split.
  - intros e. destruct status_code as [|z|s]; try discriminate.
    unfold is_body_allowed_for_status_code. cbn [is_None int_].
    destruct (in_patterns (CodeStr s)); [discriminate|].
    destruct (int_of_text s) as [n|e'] eqn:E; [discriminate|].
    intros [= <-]. now exists s.
  - intros s n -> Hp Hn.
    unfold is_body_allowed_for_status_code. cbn [is_None int_].
    now rewrite Hp, Hn.
Qed.

Lemma body_allowed_error_behaviour_witness :
  is_body_allowed_for_status_code
    (fun s => if String.eqb s "204" then Ok 204%Z else int_rejects s)
    (CodeStr "204")
  = Ok false.
Proof.
  refine (eq_trans
    (proj2 (body_allowed_error_behaviour
              (fun s => if String.eqb s "204" then Ok 204%Z else int_rejects s)
              (CodeStr "204")) "204" 204%Z _ _ _) _); reflexivity.
Defined.

(** ** [get_value_or_default] *)

Import UtilsRest.

Lemma first_given_cases {A : Type} (items : list (item A)) (fb : item A) :
  let r := first_given items fb in
  (exists before behind,
     items = (before ++ r :: behind)%list
     /\ Forall (fun it => is_placeholder it = true) before
     /\ is_placeholder r = false)
  \/ (Forall (fun it => is_placeholder it = true) items /\ r = fb).
Proof.
  induction items as [|it items IH]; cbn [first_given].
  - right. now split.
  - destruct (is_placeholder it) eqn:Hit; cbn [negb].
    + destruct IH as [(before & behind & E & Hb & Hr)|[Hall Hr]].
      * left. exists (it :: before), behind.
        repeat split; [cbn; now f_equal | now constructor | exact Hr].
      * right. split; [now constructor | exact Hr].
    + left. exists [], items. now repeat split.
Qed.

(** X11.  The item returned is one of those passed.  It is the first
    that is no placeholder; when every item is a placeholder it is the
    first item. *)
Theorem value_or_default_priority {A : Type} (first_item : item A)
  (extra_items : list (item A)) :
  let r := get_value_or_default first_item extra_items in
  In r (first_item :: extra_items)
  /\ (is_placeholder r = true ->
      r = first_item
      /\ Forall (fun it => is_placeholder it = true)
           (first_item :: extra_items))
  /\ (is_placeholder r = false ->
      exists before behind,
        first_item :: extra_items = (before ++ r :: behind)%list
        /\ Forall (fun it => is_placeholder it = true) before).
Proof.
  unfold get_value_or_default. cbv zeta.
  pose proof (first_given_cases (first_item :: extra_items) first_item) as H.
  cbv zeta in H.
  set (r := first_given (first_item :: extra_items) first_item) in *.
  destruct H as [(before & behind & E & Hb & Hr)|[Hall Hr]].
  - repeat split.
    + rewrite E. apply in_or_app. right. now left.
    + congruence.
    + congruence.
    + intros _. now exists before, behind.
  - repeat split.
    + rewrite Hr. now left.
    + exact Hr.
    + exact Hall.
    + intros H. rewrite Hr in H. inversion Hall; congruence.
Qed.

Lemma value_or_default_priority_witness :
  get_value_or_default (Placeholder 1) [Placeholder 2; Given 3; Given 4]
  = Given 3
  /\ get_value_or_default (Placeholder 1) [Placeholder 2] = Placeholder 1.
Proof.
  split.
  - destruct (proj2 (proj2 (value_or_default_priority (Placeholder 1)
        [Placeholder 2; Given 3; Given 4])) eq_refl)
      as (before & behind & _ & _).
    reflexivity.
  - exact (proj1 (proj1 (proj2 (value_or_default_priority (Placeholder 1)
        [Placeholder 2])) eq_refl)).
Defined.

(** ** [generate_unique_id] *)

Lemma sub_nonword_length (is_word : ascii -> bool) (s : string) :
  String.length (sub_nonword is_word s) = String.length s.
Proof. induction s as [|c s IH]; simpl; [reflexivity | now rewrite IH]. Qed.

Lemma sub_nonword_get (is_word : ascii -> bool) (s : string) (i : nat) :
  String.get i (sub_nonword is_word s)
  = option_map (fun c => if is_word c then c else "_"%char) (String.get i s).
Proof.
  revert i. induction s as [|c s IH]; intros i; [reflexivity|].
  destruct i as [|i]; [reflexivity|]. cbn [sub_nonword String.get]. apply IH.
Qed.

(** X12.  [generate_unique_id] fails its assertion exactly when the
    route has no method.  Otherwise the id is a stem, then "_" and the
    first method in lower case.  The stem is the name followed by the
    path, character by character: a character of [\w] is kept and any
    other one is replaced by "_"; so it is as long as the two together,
    and holds nothing left to replace. *)
Theorem unique_id_shape (is_word : ascii -> bool) (lower : string -> string)
  (route : APIRoute) :
  is_word "_"%char = true ->
  (generate_unique_id is_word lower route = None <-> methods route = [])
  /\ (forall id, generate_unique_id is_word lower route = Some id ->
      exists stem first_method others,
        methods route = first_method :: others
        /\ id = stem ++ "_" ++ lower first_method
        /\ String.length stem
           = String.length (name route) + String.length (path_format route)
        /\ (forall i,
              String.get i stem
              = match String.get i (name route ++ path_format route) with
                | Some c => Some (if is_word c then c else "_"%char)
                | None => None
                end)
        /\ (forall i c, String.get i stem = Some c -> is_word c = true)).
Proof.
  intros Hu. unfold generate_unique_id.
  destruct (methods route) as [|m ms]; split.
  - now split.
  - discriminate.
  - split; discriminate.
  - intros id [= <-].
    exists (sub_nonword is_word (name route ++ path_format route)), m, ms.
    repeat split.
    + now rewrite sub_nonword_length, length_app.
    + intros i. apply sub_nonword_get.
    + intros i c. rewrite sub_nonword_get.
      destruct (String.get i (name route ++ path_format route)) as [d|];
        [|discriminate].
      cbn [option_map]. intros [= <-].
      destruct (is_word d) eqn:Hd; [exact Hd | exact Hu].
Qed.

Lemma unique_id_shape_witness :
  generate_unique_id ascii_word (fun s => s)
    {| name := "read item"; path_format := "/items/{id}";
       methods := ["get"] |}
  = Some "read_item_items__id__get".
Proof.
  destruct (unique_id_shape ascii_word (fun s => s)
    {| name := "read item"; path_format := "/items/{id}";
       methods := ["get"] |} eq_refl) as [_ H].
  destruct (H _ eq_refl) as (stem & m & ms & _). reflexivity.
Defined.

(** ** [get_path_param_names] *)

Lemma group_end_sound (s g r : string) :
  group_end s = Some (g, r) ->
  s = g ++ String "}" r
  /\ contains "}" g = false /\ contains "010" g = false.
Proof.
  revert g. induction s as [|c s IH]; intros g; cbn [group_end];
    [discriminate|].
  destruct (Ascii.eqb_spec c "}") as [->|Hc].
  - intros [= <- <-]. now repeat split.
  - destruct (Ascii.eqb_spec c "010") as [->|Hn]; [discriminate|].
    destruct (group_end s) as [[g' r']|]; [|discriminate].
    intros [= <- <-]. destruct (IH g' eq_refl) as (-> & H1 & H2).
    cbn [contains append]. rewrite H1, H2.
    repeat split.
    + now destruct (Ascii.eqb_spec c "}").
    + now destruct (Ascii.eqb_spec c "010").
Qed.

Lemma group_end_complete (g r : string) :
  contains "}" g = false -> contains "010" g = false ->
  group_end (g ++ String "}" r) = Some (g, r).
Proof.
  induction g as [|c g IH]; cbn [contains append group_end]; intros H1 H2.
  - reflexivity.
  - apply orb_false_iff in H1 as [-> H1].
    apply orb_false_iff in H2 as [-> H2].
    now rewrite IH.
Qed.

Lemma findall_skip (a s : string) :
  findall (String.length a) (a ++ s) = findall 0 s.
Proof. induction a as [|c a IH]; [reflexivity | exact IH]. Qed.

Lemma findall_plain_prefix (p s : string) :
  contains "{" p = false -> findall 0 (p ++ s) = findall 0 s.
Proof.
  induction p as [|c p IH]; cbn [contains append findall]; intros H;
    [reflexivity|].
  apply orb_false_iff in H as [-> H]. now apply IH.
Qed.

Lemma findall_match (g r : string) :
  contains "}" g = false -> contains "010" g = false ->
  findall 0 (String "{" (g ++ String "}" r)) = g :: findall 0 r.
Proof.
  intros H1 H2. cbn [findall]. rewrite Ascii.eqb_refl.
  rewrite (group_end_complete g r H1 H2). f_equal.
  change (S (String.length g)) with (String.length (String "}" g)).
  replace (String.length (String "}" g))
    with (String.length (g ++ "}")) by (rewrite length_app; simpl; lia).
  replace (g ++ String "}" r) with ((g ++ "}") ++ r)
    by (now rewrite app_assoc_text).
  apply findall_skip.
Qed.

Lemma findall_in_path (k : nat) (s n : string) :
  In n (findall k s) ->
  contains "}" n = false /\ contains "010" n = false
  /\ exists before behind, s = before ++ String "{" (n ++ String "}" behind).
Proof.
  revert k. induction s as [|c s IH]; intros k; cbn [findall]; [intros []|].
  assert (Hrest : forall j, In n (findall j s) ->
    contains "}" n = false /\ contains "010" n = false
    /\ exists before behind,
         String c s = before ++ String "{" (n ++ String "}" behind)).
  { intros j Hj. destruct (IH j Hj) as (H1 & H2 & before & behind & ->).
    repeat split; try assumption. now exists (String c before), behind. }
  destruct k as [|k]; [|apply Hrest].
  destruct (Ascii.eqb_spec c "{") as [->|Hc]; [|apply Hrest].
  destruct (group_end s) as [[g r]|] eqn:Eg; [|apply Hrest].
  intros [<-|Hin]; [|exact (Hrest _ Hin)].
  destruct (group_end_sound s g r Eg) as (-> & H1 & H2).
  repeat split; try assumption. now exists "", r.
Qed.

(** X13.  The names form a set, and each one stands in the path between
    a "{" and the next "}", on one line. *)
Theorem path_param_names_sound (path : string) :
  NoDup (get_path_param_names path)
  /\ (forall n, In n (get_path_param_names path) ->
        contains "}" n = false /\ contains "010" n = false
        /\ exists before behind,
             path = before ++ "{" ++ n ++ "}" ++ behind).
Proof.
  unfold get_path_param_names, set_of. split; [apply NoDup_nodup|].
  intros n Hn. apply nodup_In in Hn. exact (findall_in_path 0 path n Hn).
Qed.

(** X14.  A path without "{" has no names.  Behind a prefix without "{",
    a name in braces (free of "}" and of newlines) is found, and the scan
    goes on behind its "}". *)
Theorem path_param_names_step (before name behind : string) :
  contains "{" before = false ->
  get_path_param_names before = []
  /\ (contains "}" name = false -> contains "010" name = false ->
      forall n,
        In n (get_path_param_names (before ++ "{" ++ name ++ "}" ++ behind))
        <-> n = name \/ In n (get_path_param_names behind)).
Proof.
  intros Hb. unfold get_path_param_names, set_of. split.
  - rewrite <- (app_empty_r before), findall_plain_prefix by exact Hb.
    reflexivity.
  - intros H1 H2 n. rewrite !nodup_In, findall_plain_prefix by exact Hb.
    change ("{" ++ name ++ "}" ++ behind)
      with (String "{" (name ++ String "}" behind)).
    rewrite findall_match by assumption.
    cbn [In]. intuition congruence.
Qed.

Lemma path_param_names_step_witness :
  In "item_id" (get_path_param_names ("/items/" ++ "{" ++ "item_id" ++ "}" ++ "/tags/{tag}"))
  /\ get_path_param_names "/items/" = [].
Proof.
  destruct (path_param_names_step "/items/" "item_id" "/tags/{tag}" eq_refl)
    as [Hnone Hstep].
  split; [|exact Hnone].
  apply (Hstep eq_refl eq_refl "item_id"). now left.
Defined.

(** ** [deep_dict_update] *)

Import DictUpdate.

Lemma lookup_none (d : dict) (k : string) :
  lookup d k = None <-> ~ In k (keys d).
Proof.
  induction d as [|[k0 v0] d IH]; cbn [lookup keys map fst In].
  - tauto.
  - destruct (String.eqb_spec k0 k) as [->|Hk].
    + split; [discriminate | tauto].
    + fold (keys d). rewrite IH. tauto.
Qed.

Lemma lookup_set_same (d : dict) (k : string) (v : json) :
  lookup (ErrorMiddleware.dict_set d k v) k = Some v.
Proof.
  induction d as [|[k0 v0] d IH]; cbn [ErrorMiddleware.dict_set lookup].
  - now rewrite String.eqb_refl.
  - destruct (String.eqb_spec k0 k) as [->|Hk]; cbn [lookup].
    + now rewrite String.eqb_refl.
    + destruct (String.eqb_spec k0 k); [contradiction | exact IH].
Qed.

Lemma lookup_set_other (d : dict) (k k' : string) (v : json) :
  k' <> k -> lookup (ErrorMiddleware.dict_set d k v) k' = lookup d k'.
Proof.
  intros Hk'.
  induction d as [|[k0 v0] d IH]; cbn [ErrorMiddleware.dict_set lookup].
  - destruct (String.eqb_spec k k'); [congruence | reflexivity].
  - destruct (String.eqb_spec k0 k) as [->|Hk]; cbn [lookup].
    + destruct (String.eqb_spec k k'); [congruence | reflexivity].
    + now rewrite IH.
Qed.

Lemma keys_set_old (d : dict) (k : string) (v : json) :
  In k (keys d) -> keys (ErrorMiddleware.dict_set d k v) = keys d.
Proof.
  induction d as [|[k0 v0] d IH]; cbn [ErrorMiddleware.dict_set keys map fst In];
    [intros []|].
  fold (keys d). intros Hin.
  destruct (String.eqb_spec k0 k) as [->|Hk]; [reflexivity|].
  cbn [map fst]. fold (keys (ErrorMiddleware.dict_set d k v)).
  rewrite IH; [reflexivity | tauto].
Qed.

Lemma set_new (d : dict) (k : string) (v : json) :
  ~ In k (keys d) -> ErrorMiddleware.dict_set d k v = (d ++ [(k, v)])%list.
Proof.
  induction d as [|[k0 v0] d IH]; cbn [ErrorMiddleware.dict_set keys map fst In];
    [reflexivity|].
  fold (keys d). intros Hin.
  destruct (String.eqb_spec k0 k) as [->|Hk]; [tauto|].
  cbn [Datatypes.app]. rewrite IH; [reflexivity | tauto].
Qed.

(** One round of the loop stores the merged value under the key. *)
Lemma deep_cons (main_dict : dict) (k : string) (v : json) (rest : dict) :
  deep_dict_update main_dict ((k, v) :: rest)
  = deep_dict_update
      (ErrorMiddleware.dict_set main_dict k (merged (lookup main_dict k) v))
      rest.
Proof.
  unfold deep_dict_update at 1. cbn [update_with].
  change (deep_dict_update (update_item (update_with v) main_dict k v) rest
          = deep_dict_update
              (ErrorMiddleware.dict_set main_dict k
                 (merged (lookup main_dict k) v)) rest).
  f_equal. unfold update_item, merged.
  destruct (lookup main_dict k) as [[]|]; destruct v; reflexivity.
Qed.

(** X15.  After the update, a key of [update_dict] holds the merge of
    what [main_dict] held and the value given (two dicts merged key by
    key, two lists joined, else the value given); a key that is not in
    [update_dict] holds what it held. *)
Theorem deep_dict_update_lookup (update_dict main_dict : dict) (k : string) :
  NoDup (keys update_dict) ->
  lookup (deep_dict_update main_dict update_dict) k
  = match lookup update_dict k with
    | Some v => Some (merged (lookup main_dict k) v)
    | None => lookup main_dict k
    end.
Proof.
  revert main_dict.
  induction update_dict as [|[k0 v0] rest IH]; intros main_dict Hnd;
    [reflexivity|].
  cbn [keys map fst] in Hnd. inversion Hnd as [|? ? Hk0 Hrest]; subst.
  rewrite deep_cons, (IH _ Hrest). cbn [lookup].
  destruct (String.eqb_spec k0 k) as [->|Hk].
  - assert (lookup rest k = None) as -> by now apply lookup_none.
    apply lookup_set_same.
  - rewrite lookup_set_other by congruence. reflexivity.
Qed.

Lemma deep_dict_update_lookup_witness :
  lookup
    (deep_dict_update
       [("tags", JList [JStr "a"]); ("info", JDict [("title", JStr "t")])]
       [("tags", JList [JStr "b"]);
        ("info", JDict [("version", JInt 2)])])
    "tags"
  = Some (JList [JStr "a"; JStr "b"]).
Proof.
  refine (eq_trans (deep_dict_update_lookup _ _ "tags" _) _).
  - repeat constructor; simpl; intuition discriminate.
  - reflexivity.
Defined.

(** X16.  Keys that [update_dict] holds and [main_dict] does not are
    added behind the entries of [main_dict], in the order of
    [update_dict]: on an empty [main_dict] the update is a copy. *)
Theorem deep_dict_update_new_keys (update_dict main_dict : dict) :
  NoDup (keys update_dict) ->
  (forall k, In k (keys update_dict) -> ~ In k (keys main_dict)) ->
  deep_dict_update main_dict update_dict = (main_dict ++ update_dict)%list
  /\ (main_dict = [] -> deep_dict_update main_dict update_dict = update_dict).
Proof.
  intros Hnd Hdis.
  assert (H : deep_dict_update main_dict update_dict
              = (main_dict ++ update_dict)%list).
  { revert main_dict Hdis.
    induction update_dict as [|[k0 v0] rest IH]; intros main_dict Hdis.
    - cbn. now rewrite app_nil_r.
    - cbn [keys map fst] in Hnd. inversion Hnd as [|? ? Hk0 Hrest]; subst.
      rewrite deep_cons.
      assert (Hnew : ~ In k0 (keys main_dict)) by (apply Hdis; now left).
      assert (lookup main_dict k0 = None) as -> by now apply lookup_none.
      cbn [merged]. rewrite set_new by exact Hnew.
      rewrite (IH Hrest).
      + now rewrite <- app_assoc.
      + intros k Hk. unfold keys. rewrite map_app, in_app_iff.
        cbn [map fst In]. intros [Hin|[<-|[]]].
        * apply (Hdis k); [now right | exact Hin].
        * contradiction. }
  split; [exact H|]. intros ->. exact H.
Qed.

Lemma deep_dict_update_new_keys_witness :
  deep_dict_update [("a", JInt 1)] [("b", JInt 2); ("c", JNull)]
  = [("a", JInt 1); ("b", JInt 2); ("c", JNull)].
Proof.
  refine (proj1 (deep_dict_update_new_keys
                   [("b", JInt 2); ("c", JNull)] [("a", JInt 1)] _ _)).
  - repeat constructor; simpl; intuition discriminate.
  - intros k Hk Hin. simpl in Hk, Hin.
    destruct Hin as [<-|[]]. destruct Hk as [H|[H|[]]]; discriminate H.
Defined.

Lemma keys_set_cases (d : dict) (k : string) (v : json) :
  (In k (keys d) /\ keys (ErrorMiddleware.dict_set d k v) = keys d)
  \/ (~ In k (keys d)
      /\ keys (ErrorMiddleware.dict_set d k v) = (keys d ++ [k])%list).
Proof.
  destruct (in_dec string_dec k (keys d)) as [Hin|Hout].
  - left. split; [exact Hin | now apply keys_set_old].
  - right. split; [exact Hout|].
    rewrite set_new by exact Hout. unfold keys. now rewrite map_app.
Qed.

(** X17.  The update keeps the entries of [main_dict] in place and adds
    keys behind them: the keys afterwards are those of [main_dict]
    followed by new ones, they are the keys of either dict, and no key
    comes twice if none did before. *)
Theorem deep_dict_update_keys (update_dict main_dict : dict) :
  (exists added,
     keys (deep_dict_update main_dict update_dict)
     = (keys main_dict ++ added)%list)
  /\ (forall k, In k (keys (deep_dict_update main_dict update_dict))
                <-> In k (keys main_dict) \/ In k (keys update_dict))
  /\ (NoDup (keys main_dict) ->
      NoDup (keys (deep_dict_update main_dict update_dict))).
Proof.
  revert main_dict.
  induction update_dict as [|[k0 v0] rest IH]; intros main_dict.
  - change (deep_dict_update main_dict []) with main_dict.
    repeat split; [exists []; now rewrite app_nil_r | | | ]; cbn; tauto.
  - rewrite deep_cons.
    set (main' := ErrorMiddleware.dict_set main_dict k0
                    (merged (lookup main_dict k0) v0)).
    destruct (IH main') as ((added & Ha) & Hin & Hnd).
    destruct (keys_set_cases main_dict k0 (merged (lookup main_dict k0) v0))
      as [[Hk Hkeys]|[Hk Hkeys]]; fold main' in Hkeys.
    + repeat split.
      * exists added. now rewrite Ha, Hkeys.
      * rewrite Hin, Hkeys. cbn [keys map fst In]. fold (keys rest). tauto.
      * rewrite Hin, Hkeys. cbn [keys map fst In]. fold (keys rest).
        intros [H|[<-|H]]; tauto.
      * intros H. apply Hnd. now rewrite Hkeys.
    + repeat split.
      * exists (k0 :: added). rewrite Ha, Hkeys. now rewrite <- app_assoc.
      * rewrite Hin, Hkeys, in_app_iff. cbn [keys map fst In].
        fold (keys rest). tauto.
      * rewrite Hin, Hkeys, in_app_iff. cbn [keys map fst In].
        fold (keys rest). tauto.
      * intros H. apply Hnd. rewrite Hkeys.
        apply NoDup_app; [exact H | repeat constructor; intros [] |].
        intros k Hin1 [<-|[]]. contradiction.
Qed.

(** ** The handlers of [configure_problem_details] *)

Section ProblemDetailsFacts.

Import ProblemDetails.

Variable int_of_text : string -> result Z.
Variable encode_errors : list error -> result json.
Variable encode_normalized : list normalized_error -> result json.
Variable jsonable_encoder : json -> json.
Variable render : json -> result unit.
Variable str_detail : json -> string.
Variable cfg : config.

(** X18.  The Problem Details handler for HTTP exceptions always
    answers, with the status code and headers of the exception.  It
    leaves the body out for the same status codes as
    [http_exception_handler], with the same response; every body it
    sends is typed "application/problem+json". *)
Theorem http_problem_handler_gate (exc : HTTPException) :
  exists r,
    _http_exc_handler int_of_text jsonable_encoder str_detail cfg exc = Ok r
    /\ status_of r = http_status_code exc
    /\ headers_of r = http_headers exc
    /\ (response_body r = None <-> no_body (http_status_code exc) = true)
    /\ (no_body (http_status_code exc) = true ->
        http_exception_handler int_of_text exc = Ok r)
    /\ (no_body (http_status_code exc) = false ->
        media_type_of r = Some "application/problem+json").
Proof.
  unfold _http_exc_handler.
  rewrite http_exception_handler_run, is_body_allowed_int.
  destruct (no_body (http_status_code exc)); cbn [negb].
  - eexists. split; [reflexivity|]. cbn. intuition congruence.
  - destruct (is_dict_with "type" (http_detail exc));
      [|destruct (legacy_mode cfg && is_list (http_detail exc))];
      (eexists; split; [reflexivity|]; cbn; intuition congruence).
Qed.

(** X19.  A body built by that handler (the detail is not itself a dict
    with a "type") has the members "type", "title", "status", "detail"
    in this order; "status" is the status code of the response and
    "type" is the base with "/http-error".  A detail that is a dict with
    a "type" is sent as the body unchanged. *)
Theorem http_problem_handler_body (exc : HTTPException) :
  no_body (http_status_code exc) = false ->
  (is_dict_with "type" (http_detail exc) = true ->
     _http_exc_handler int_of_text jsonable_encoder str_detail cfg exc
     = Ok (JSONResponse (http_detail exc) (http_status_code exc)
             (http_headers exc) "application/problem+json"))
  /\ (is_dict_with "type" (http_detail exc) = false ->
     exists problem,
       _http_exc_handler int_of_text jsonable_encoder str_detail cfg exc
       = Ok (JSONResponse (JDict problem) (http_status_code exc)
               (http_headers exc) "application/problem+json")
       /\ keys problem = ["type"; "title"; "status"; "detail"]
       /\ DictUpdate.lookup problem "status"
          = Some (JInt (http_status_code exc))
       /\ DictUpdate.lookup problem "type"
          = Some (JStr (type_base cfg ++ "/http-error"))).
Proof.
  intros Hb. unfold _http_exc_handler.
  rewrite is_body_allowed_int, Hb. cbn [negb].
  split; intros ->; [reflexivity|].
  destruct (legacy_mode cfg && is_list (http_detail exc));
    eexists; repeat split.
Qed.

Lemma normalize_entries (raw_errors : list error)
  (normalized : list normalized_error) :
  normalize raw_errors = Ok normalized ->
  Forall2
    (fun err n =>
       n_loc n = loc_or_empty err /\ n_msg n = msg err
       /\ n_type n = type_ err /\ n_ctx n = ctx err
       /\ fst (build_from_pydantic_error (loc_or_empty err)) = Ok (pointer n))
    raw_errors normalized.
Proof.
  revert normalized.
  induction raw_errors as [|err rest IH]; intros normalized; cbn [normalize].
  - intros [= <-]. constructor.
  - fold (loc_or_empty err).
    destruct (fst (build_from_pydantic_error (loc_or_empty err)))
      as [p|] eqn:Ep; [|discriminate].
    destruct (normalize rest) as [ns|]; [|discriminate].
    intros [= <-]. constructor; [now repeat split | now apply IH].
Qed.

(** X20.  When the validation problem is built, [normalized] has one
    entry per error, in order, with loc, msg, type and ctx taken over;
    its pointer is the one of the loc, empty or starting with "/" and at
    most 2003 characters long, and empty when the error has no loc. *)
Theorem validation_problem_entries (raw_errors : list error)
  (normalized : list normalized_error) :
  normalize raw_errors = Ok normalized ->
  List.length normalized = List.length raw_errors
  /\ Forall2
       (fun err n =>
          n_loc n = loc_or_empty err /\ n_msg n = msg err
          /\ n_type n = type_ err /\ n_ctx n = ctx err
          /\ fst (build_from_pydantic_error (loc_or_empty err))
             = Ok (pointer n)
          /\ String.length (pointer n) <= 2003
          /\ (pointer n = "" \/ exists rest, pointer n = String "/" rest)
          /\ (loc err = None -> pointer n = ""))
       raw_errors normalized.
Proof.
  intros H. apply normalize_entries in H.
  split; [symmetry; exact (Forall2_length H)|].
  induction H as [|err n errs ns (H1 & H2 & H3 & H4 & H5) _ IH];
    constructor; [|exact IH].
  repeat split; try assumption.
  - exact (build_length_bound _ _ H5).
  - destruct (build_shape _ _ H5) as [[_ ->]|[_ Hs]];
      [now left | now right].
  - intros Hnone. unfold loc_or_empty in H5. rewrite Hnone in H5.
    cbn in H5. now injection H5 as <-.
Qed.



End ProblemDetailsFacts.

Lemma http_problem_handler_body_witness :
  exists problem,
    ProblemDetails._http_exc_handler int_rejects (fun d => d)
      (fun _ => "Not Found")
      {| ProblemDetails.legacy_mode := true;
         ProblemDetails.override_http_exceptions := true;
         ProblemDetails.type_base := "https://example.com/problems";
         ProblemDetails.debug := false |}
      {| http_status_code := 404; http_detail := JStr "Not Found";
         http_headers := None |}
    = Ok (JSONResponse (JDict problem) 404 None "application/problem+json")
    /\ keys problem = ["type"; "title"; "status"; "detail"]
    /\ DictUpdate.lookup problem "status" = Some (JInt 404)
    /\ DictUpdate.lookup problem "type"
       = Some (JStr "https://example.com/problems/http-error").
Proof.
  refine (proj2 (http_problem_handler_body int_rejects (fun d => d)
    (fun _ => "Not Found")
    {| ProblemDetails.legacy_mode := true;
       ProblemDetails.override_http_exceptions := true;
       ProblemDetails.type_base := "https://example.com/problems";
       ProblemDetails.debug := false |}
    {| http_status_code := 404; http_detail := JStr "Not Found";
       http_headers := None |} _) _); reflexivity.
Defined.

Lemma validation_problem_entries_witness :
  List.length
    [ {| ProblemDetails.n_loc := [Str "body"; Str "items"; Int 0];
         ProblemDetails.n_msg := Some (JStr "field required");
         ProblemDetails.n_type := Some (JStr "missing");
         ProblemDetails.n_ctx := None;
         ProblemDetails.pointer := "/items/0" |};
      {| ProblemDetails.n_loc := [];
         ProblemDetails.n_msg := None; ProblemDetails.n_type := None;
         ProblemDetails.n_ctx := None; ProblemDetails.pointer := "" |} ]
  = List.length
      [ {| ProblemDetails.loc := Some [Str "body"; Str "items"; Int 0];
           ProblemDetails.msg := Some (JStr "field required");
           ProblemDetails.type_ := Some (JStr "missing");
           ProblemDetails.ctx := None;
         ProblemDetails.input := Some (Obj (Ok "{}")) |};
        {| ProblemDetails.loc := None; ProblemDetails.msg := None;
           ProblemDetails.type_ := None; ProblemDetails.ctx := None;
         ProblemDetails.input := None |} ].
Proof.
  refine (proj1 (validation_problem_entries
    [ {| ProblemDetails.loc := Some [Str "body"; Str "items"; Int 0];
         ProblemDetails.msg := Some (JStr "field required");
         ProblemDetails.type_ := Some (JStr "missing");
         ProblemDetails.ctx := None;
         ProblemDetails.input := Some (Obj (Ok "{}")) |};
      {| ProblemDetails.loc := None; ProblemDetails.msg := None;
         ProblemDetails.type_ := None; ProblemDetails.ctx := None;
         ProblemDetails.input := None |} ]
    [ {| ProblemDetails.n_loc := [Str "body"; Str "items"; Int 0];
         ProblemDetails.n_msg := Some (JStr "field required");
         ProblemDetails.n_type := Some (JStr "missing");
         ProblemDetails.n_ctx := None;
         ProblemDetails.pointer := "/items/0" |};
      {| ProblemDetails.n_loc := [];
         ProblemDetails.n_msg := None; ProblemDetails.n_type := None;
         ProblemDetails.n_ctx := None; ProblemDetails.pointer := "" |} ]
    _)).
  reflexivity.
Defined.

(** ** Further properties of [ErrorMiddleware] *)

Lemma call_not_http (env : imports)
  (self : ErrorMiddleware.ErrorMiddleware) (sc : scope) (w : world) :
  is_http sc = false -> __call__ env self sc w = app self sc w.
Proof. unfold is_http, __call__. now intros ->. Qed.

Lemma call_on_return (env : imports)
  (self : ErrorMiddleware.ErrorMiddleware) (sc : scope) (w w1 : world) :
  app self sc w = (Ok tt, w1) -> __call__ env self sc w = (Ok tt, w1).
Proof.
  intros Happ. unfold __call__.
  destruct (negb _); rewrite Happ; reflexivity.
Qed.

(** X22.  The middleware is transparent wherever the catch-all does not
    engage: for a scope that is not HTTP, for an application that
    returns, and for an exception it does not take, the outcome is the
    application's, with nothing logged or sent on top. *)
Theorem middleware_transparent (env : imports)
  (self : ErrorMiddleware.ErrorMiddleware) (sc : scope) (w : world) :
  (is_http sc = false -> __call__ env self sc w = app self sc w)
  /\ (forall w1, app self sc w = (Ok tt, w1) ->
        __call__ env self sc w = (Ok tt, w1))
  /\ (forall e w1, app self sc w = (Raise e, w1) -> caught env e = false ->
        __call__ env self sc w = (Raise e, w1))
  /\ (forall e w1, app self sc w = (Raise e, w1) ->
        isinstance e Exception = false ->
        __call__ env self sc w = (Raise e, w1)).
Proof.
  assert (H3 : forall e w1, app self sc w = (Raise e, w1) ->
               caught env e = false -> __call__ env self sc w = (Raise e, w1)).
  { intros e w1 Happ Hc. destruct (is_http sc) eqn:Hh.
    - now rewrite (call_on_raise env self sc w w1 e Hh Happ), Hc.
    - unfold is_http in Hh. unfold __call__. now rewrite Hh. }
  repeat split.
  - apply call_not_http.
  - intros w1. apply call_on_return.
  - exact H3.
  - intros e w1 Happ He. apply H3; [exact Happ|].
    unfold caught. now rewrite He.
Qed.

Lemma middleware_transparent_witness :
  __call__ installed
    {| app := raising_app (Exc ValueError "boom"); debug := false |}
    [("type", "websocket")] (World [] [])
  = (Raise (Exc ValueError "boom"), World [] [])
  /\ __call__ installed
       {| app := raising_app (Exc KeyboardInterrupt ""); debug := false |}
       [("type", "http")] (World [] [])
     = (Raise (Exc KeyboardInterrupt ""), World [] []).
Proof.
  split.
  - exact (proj1 (middleware_transparent installed
      {| app := raising_app (Exc ValueError "boom"); debug := false |}
      [("type", "websocket")] (World [] [])) eq_refl).
  - exact (proj2 (proj2 (proj2 (middleware_transparent installed
      {| app := raising_app (Exc KeyboardInterrupt ""); debug := false |}
      [("type", "http")] (World [] []))))
      (Exc KeyboardInterrupt "") (World [] []) eq_refl eq_refl).
Defined.

(** X23.  The middleware raises nothing of its own and takes nothing
    back: an exception that leaves it is the one the application raised,
    and what the application sent and logged stays in place, followed by
    at most one response and one log record, which come together. *)
Theorem middleware_adds_at_most_one (env : imports)
  (self : ErrorMiddleware.ErrorMiddleware) (sc : scope) (w : world) :
  (forall e w', __call__ env self sc w = (Raise e, w') ->
     app self sc w = (Raise e, w'))
  /\ exists more_sent more_logged,
       sent (snd (__call__ env self sc w))
       = (sent (snd (app self sc w)) ++ more_sent)%list
       /\ logged (snd (__call__ env self sc w))
          = (logged (snd (app self sc w)) ++ more_logged)%list
       /\ List.length more_sent = List.length more_logged
       /\ List.length more_sent <= 1.
Proof.
  assert (Hsame : forall out : result unit * world,
    exists more_sent more_logged,
      sent (snd out) = (sent (snd out) ++ more_sent)%list
      /\ logged (snd out) = (logged (snd out) ++ more_logged)%list
      /\ List.length more_sent = List.length more_logged
      /\ List.length more_sent <= 1).
  { intros out. exists [], []. rewrite !app_nil_r. cbn. auto. }
  destruct (is_http sc) eqn:Hh.
  - destruct (app self sc w) as [[[]|e] w1] eqn:Happ.
    + rewrite (call_on_return env self sc w w1 Happ).
      split; [auto | apply Hsame].
    + rewrite (call_on_raise env self sc w w1 e Hh Happ).
      destruct (caught env e).
      * split; [discriminate|].
        eexists [_], [_]. cbn. repeat split; auto.
      * split; [auto | apply Hsame].
  - rewrite (call_not_http env self sc w Hh).
    split; [auto | apply Hsame].
Qed.

(** X24.  When the import of Starlette's [HTTPException] has failed, the
    test for it is skipped: an HTTP exception on an HTTP request is then
    logged and answered with the 500 problem like any other. *)
Theorem middleware_without_http_class
  (self : ErrorMiddleware.ErrorMiddleware) (sc : scope) (w w1 : world)
  (e : exc) :
  is_http sc = true ->
  app self sc w = (Raise e, w1) ->
  isinstance e StarletteHTTPException = true ->
  __call__ {| imp_StarletteHTTPException := None;
              imp_RequestValidationError := Some RequestValidationError |}
    self sc w
  = (Ok tt,
     World (sent w1 ++
            [problem_response
               (if debug self then problem_with_detail (exc_text e)
                else generic_problem)])
           (logged w1 ++ ["Unhandled exception in request"])).
Proof.
  intros Hh Happ He.
  rewrite (call_on_raise _ self sc w w1 e Hh Happ).
  assert (caught {| imp_StarletteHTTPException := None;
                    imp_RequestValidationError := Some RequestValidationError |}
            e = true) as ->; [|reflexivity].
  unfold caught. cbn [and_isinstance imp_StarletteHTTPException
                      imp_RequestValidationError negb andb].
  destruct e as [[] t]; vm_compute in He |- *; congruence.
Qed.

Lemma middleware_without_http_class_witness :
  __call__ {| imp_StarletteHTTPException := None;
              imp_RequestValidationError := Some RequestValidationError |}
    {| app := raising_app (Exc FastAPIHTTPException "404: Not Found");
       debug := false |}
    [("type", "http")] (World [] [])
  = (Ok tt,
     World [problem_response generic_problem]
           ["Unhandled exception in request"]).
Proof.
  apply (middleware_without_http_class
    {| app := raising_app (Exc FastAPIHTTPException "404: Not Found");
       debug := false |}
    [("type", "http")] (World [] []) (World [] [])
    (Exc FastAPIHTTPException "404: Not Found")); reflexivity.
Defined.

